(** * relay_leaf.py: the ctypes binding of the Relay Leaf client library

    A shallow embedding of [src/relay_leaf.py].  The Python module wraps a
    precompiled native library (relay_leaf_win64.dll) behind the class
    [RelayLeaf] and ships a console runner, [main].

    - Python values are modelled by the small universe [PyVal]; the [str]
      type is [string]; a [c_int]/[c_longlong] read back by ctypes is a
      Python [int], modelled by [Z].
    - The object state ([self._handle]), the memory of the native library,
      the sequence of foreign calls made through [self._dll] and the lines
      written by [print] are threaded through the monad [Py], which also
      carries Python exceptions.
    - The native library is an interface, [NativeLib]: the binding is
      verified against every implementation of it.  A foreign call either
      returns or makes ctypes raise (the handlers in [stop] and [destroy]
      are there for that).
    - char* results are UTF-8 C strings by the docstring of
      [RelayLeafStats]; they are modelled as [option string], [None] being
      the NULL pointer, so that [ctypes.string_at(p).decode('utf-8')] is
      the identity on the text. *)

From stdpp Require Import gmap strings list fin_maps pretty sorting.

Open Scope Z_scope.
Open Scope string_scope.
Open Scope list_scope.

(** ** Error codes (class [RelayLeafError]) *)

Module RelayLeafError.
Definition OK : Z := 0.
Definition NULL_PARAM : Z := 1.
Definition INVALID_HANDLE : Z := 2.
Definition CREATE_FAILED : Z := 3.
Definition START_FAILED : Z := 4.
Definition ALREADY_STARTED : Z := 5.
Definition NOT_STARTED : Z := 6.
Definition INVALID_PROXY : Z := 7.
Definition INTERNAL : Z := 99.

(** The class body as Python evaluates it: attribute names with their
    values, in source order. *)
Definition members : list (string * Z) :=
  [ ("OK", OK); ("NULL_PARAM", NULL_PARAM); ("INVALID_HANDLE", INVALID_HANDLE);
    ("CREATE_FAILED", CREATE_FAILED); ("START_FAILED", START_FAILED);
    ("ALREADY_STARTED", ALREADY_STARTED); ("NOT_STARTED", NOT_STARTED);
    ("INVALID_PROXY", INVALID_PROXY); ("INTERNAL", INTERNAL) ].
End RelayLeafError.

(** ** The native statistics struct (class [RelayLeafStats])

    Fields in the order of [_fields_].  The three [c_void_p] fields point to
    C strings owned by the library. *)

Record RelayLeafStats := {
  uptime_seconds : Z;
  total_streams : Z;
  bytes_sent : Z;
  bytes_received : Z;
  reconnect_count : Z;
  last_error : option string;
  exit_points_json : option string;
  node_addresses_json : option string;
  active_streams : Z;
  connected_nodes : Z;
  connected : bool
}.

(** [RelayLeafStats()]: ctypes zero-initialises a fresh structure. *)
Definition RelayLeafStats_new : RelayLeafStats :=
  {| uptime_seconds := 0; total_streams := 0; bytes_sent := 0;
     bytes_received := 0; reconnect_count := 0; last_error := None;
     exit_points_json := None; node_addresses_json := None;
     active_streams := 0; connected_nodes := 0; connected := false |}.

(** ** Python values *)

Inductive PyVal :=
| PyNone
| PyBool (b : bool)
| PyInt (n : Z)
| PyStr (s : string).

(** [str(v)], as an f-string formats a value. *)
Definition py_str (v : PyVal) : string :=
  match v with
  | PyNone => "None"
  | PyBool true => "True"
  | PyBool false => "False"
  | PyInt n => pretty n
  | PyStr s => s
  end.

(** Truth value of a [str]: the empty string is false. *)
Definition str_truthy (s : string) : bool :=
  match s with
  | EmptyString => false
  | String _ _ => true
  end.

(** A [dict] with string keys, in insertion order. *)
Definition PyDict := list (string * PyVal).

Fixpoint dict_lookup (k : string) (d : PyDict) : option PyVal :=
  match d with
  | [] => None
  | (k', v) :: d' => if String.eqb k k' then Some v else dict_lookup k d'
  end.

Definition dict_keys (d : PyDict) : list string := map fst d.

(** [self._handle]: [None], or a [c_void_p] holding an address.  A
    [c_void_p] is true exactly when the address is not NULL. *)
Inductive Handle :=
| HandleNone
| c_void_p (value : Z).

Definition handle_truthy (h : Handle) : bool :=
  match h with
  | HandleNone => false
  | c_void_p v => negb (Z.eqb v 0)
  end.

(** The raw address ctypes passes for a [c_void_p] argument. *)
Definition handle_value (h : Handle) : Z :=
  match h with
  | HandleNone => 0
  | c_void_p v => v
  end.

(** ** Exceptions *)

Inductive PyExc :=
| RuntimeError (msg : string)
| OSError (msg : string)
| KeyError (key : string).

(** [str(ex)], as [print(f"Fatal error: {ex}")] shows it. *)
Definition exc_str (e : PyExc) : string :=
  match e with
  | RuntimeError m => m
  | OSError m => m
  | KeyError k => "'" +:+ k +:+ "'"
  end.

(** ** The native library

    What a foreign call does.  [Raised] is a fault inside the library that
    ctypes turns into a Python exception. *)

Inductive Outcome (A : Type) :=
| Returned (a : A)
| Raised (msg : string).
Arguments Returned {A} a.
Arguments Raised {A} msg.

(** The exported functions the binding declares in [_setup_functions],
    acting on the library's memory [NState].  The handle is passed as its
    address.  [relay_leaf_create] returns the code and what it stored in the
    out-parameter; [relay_leaf_get_stats] returns the code and the struct it
    filled.  [relay_leaf_version] and [relay_leaf_error_message] take no
    handle: they are lookups that cannot reach a session and are taken to
    return.  [relay_leaf_free_string] and [relay_leaf_free_stats] only
    release memory; they appear in the call record. *)
Record NativeLib (NState : Type) := {
  relay_leaf_create : bool -> NState -> Outcome (Z * Z) * NState;
  relay_leaf_set_discovery_url : Z -> string -> NState -> Outcome Z * NState;
  relay_leaf_set_partner_id : Z -> string -> NState -> Outcome Z * NState;
  relay_leaf_add_proxy : Z -> string -> NState -> Outcome Z * NState;
  relay_leaf_start : Z -> NState -> Outcome Z * NState;
  relay_leaf_stop : Z -> NState -> Outcome Z * NState;
  relay_leaf_destroy : Z -> NState -> Outcome Z * NState;
  relay_leaf_get_stats : Z -> NState -> Outcome (Z * RelayLeafStats) * NState;
  relay_leaf_get_device_id : Z -> NState -> Outcome (option string) * NState;
  relay_leaf_version : option string;
  relay_leaf_error_message : Z -> option string
}.
Arguments relay_leaf_create {NState} _.
Arguments relay_leaf_set_discovery_url {NState} _.
Arguments relay_leaf_set_partner_id {NState} _.
Arguments relay_leaf_add_proxy {NState} _.
Arguments relay_leaf_start {NState} _.
Arguments relay_leaf_stop {NState} _.
Arguments relay_leaf_destroy {NState} _.
Arguments relay_leaf_get_stats {NState} _.
Arguments relay_leaf_get_device_id {NState} _.
Arguments relay_leaf_version {NState} _.
Arguments relay_leaf_error_message {NState} _.

(** One entry per call through [self._dll]. *)
Inductive NativeCall :=
| Call_create (verbose : bool)
| Call_set_discovery_url (h : Z) (url : string)
| Call_set_partner_id (h : Z) (partner_id : string)
| Call_add_proxy (h : Z) (proxy_url : string)
| Call_start (h : Z)
| Call_stop (h : Z)
| Call_destroy (h : Z)
| Call_get_stats (h : Z)
| Call_free_stats
| Call_free_string (s : string)
| Call_version
| Call_error_message (code : Z)
| Call_get_device_id (h : Z).

(** ** The interpreter state and the [Py] monad *)

Record World (NState : Type) := {
  dll : NState;
  _handle : Handle;
  calls : list NativeCall;
  stdout : list string
}.
Arguments dll {NState} _.
Arguments _handle {NState} _.
Arguments calls {NState} _.
Arguments stdout {NState} _.
Arguments Build_World {NState} _ _ _ _.

Inductive PyResult (A : Type) :=
| Return (a : A)
| Raise (e : PyExc).
Arguments Return {A} a.
Arguments Raise {A} e.

Definition Py (NState A : Type) : Type :=
  World NState -> PyResult A * World NState.

Definition ret {NState A} (a : A) : Py NState A :=
  fun w => (Return a, w).

Definition raise {NState A} (e : PyExc) : Py NState A :=
  fun w => (Raise e, w).

Definition bind {NState A B} (c : Py NState A) (k : A -> Py NState B)
  : Py NState B :=
  fun w =>
    match c w with
    | (Return a, w') => k a w'
    | (Raise e, w') => (Raise e, w')
    end.

Notation "'let*' x ':=' c 'in' k" := (bind c (fun x => k))
  (at level 10, x name, c at level 100, k at level 200).
Notation "'let*' ' p ':=' c 'in' k" := (bind c (fun x => match x with p => k end))
  (at level 10, p pattern, c at level 100, k at level 200).
Notation "'run' c 'then' k" := (bind c (fun _ => k))
  (at level 10, c at level 100, k at level 200).

(** [try: c except Exception: pass] *)
Definition try_pass {NState A} (c : Py NState A) : Py NState unit :=
  fun w =>
    match c w with
    | (Return _, w') => (Return tt, w')
    | (Raise _, w') => (Return tt, w')
    end.

Definition get_handle {NState} : Py NState Handle :=
  fun w => (Return (_handle w), w).

Definition set_handle {NState} (h : Handle) : Py NState unit :=
  fun w => (Return tt, Build_World (dll w) h (calls w) (stdout w)).

(** [print(line)] *)
Definition print {NState} (line : string) : Py NState unit :=
  fun w => (Return tt, Build_World (dll w) (_handle w) (calls w) (stdout w ++ [line])).

(** A call through [self._dll] that acts on the library's memory. *)
Definition ffi {NState A} (ev : NativeCall) (f : NState -> Outcome A * NState)
  : Py NState A :=
  fun w =>
    let '(o, ns) := f (dll w) in
    let w' := Build_World ns (_handle w) (calls w ++ [ev]) (stdout w) in
    match o with
    | Returned a => (Return a, w')
    | Raised m => (Raise (OSError m), w')
    end.

(** A call through [self._dll] that takes no handle. *)
Definition ffi_const {NState A} (ev : NativeCall) (a : A) : Py NState A :=
  fun w => (Return a, Build_World (dll w) (_handle w) (calls w ++ [ev]) (stdout w)).

(** ** class [RelayLeaf] *)

Section RelayLeaf.
Context {NState : Type} (lib : NativeLib NState).

(** [__init__] after the library is loaded: [self._handle = None]. *)
Definition RelayLeaf_init (ns : NState) : World NState :=
  Build_World ns HandleNone [] [].

Definition _ptr_to_string_and_free (ptr : option string)
  : Py NState (option string) :=
  match ptr with
  | None => ret None
  | Some result =>
      run ffi_const (Call_free_string result) tt then
      ret (Some result)
  end.

Definition _ptr_to_string (ptr : option string) : PyVal :=
  match ptr with
  | None => PyNone
  | Some s => PyStr s
  end.

Definition get_error_text (code : Z) : Py NState string :=
  let* ptr := ffi_const (Call_error_message code) (relay_leaf_error_message lib code) in
  let* msg := _ptr_to_string_and_free ptr in
  ret (match msg with
       | Some m => if str_truthy m then m else "error_code=" +:+ pretty code
       | None => "error_code=" +:+ pretty code
       end).

Definition get_version : Py NState string :=
  let* ptr := ffi_const Call_version (relay_leaf_version lib) in
  let* version := _ptr_to_string_and_free ptr in
  ret (match version with
       | Some v => if str_truthy v then v else "unknown"
       | None => "unknown"
       end).

Definition _check (code : Z) (api_name : string) : Py NState unit :=
  if negb (Z.eqb code 0) then
    let* msg := get_error_text code in
    raise (RuntimeError (api_name +:+ " failed: " +:+ pretty code +:+ " (" +:+ msg +:+ ")"))
  else ret tt.

Definition create (verbose : bool) : Py NState unit :=
  let* '(rc, handle) := ffi (Call_create verbose) (relay_leaf_create lib verbose) in
  run _check rc "relay_leaf_create" then
  set_handle (c_void_p handle).

Definition get_device_id : Py NState string :=
  let* h := get_handle in
  if negb (handle_truthy h) then ret ""
  else
    let* ptr := ffi (Call_get_device_id (handle_value h))
                    (relay_leaf_get_device_id lib (handle_value h)) in
    let* device_id := _ptr_to_string_and_free ptr in
    ret (match device_id with
         | Some d => if str_truthy d then d else ""
         | None => ""
         end).

Definition set_discovery_url (url : string) : Py NState unit :=
  let* h := get_handle in
  if negb (handle_truthy h) then raise (RuntimeError "Client not created")
  else
    let* rc := ffi (Call_set_discovery_url (handle_value h) url)
                   (relay_leaf_set_discovery_url lib (handle_value h) url) in
    _check rc "relay_leaf_set_discovery_url".

Definition set_partner_id (partner_id : string) : Py NState unit :=
  let* h := get_handle in
  if negb (handle_truthy h) then raise (RuntimeError "Client not created")
  else
    let* rc := ffi (Call_set_partner_id (handle_value h) partner_id)
                   (relay_leaf_set_partner_id lib (handle_value h) partner_id) in
    _check rc "relay_leaf_set_partner_id".

Definition add_proxy (proxy_url : string) : Py NState bool :=
  let* h := get_handle in
  if negb (handle_truthy h) then raise (RuntimeError "Client not created")
  else
    let* rc := ffi (Call_add_proxy (handle_value h) proxy_url)
                   (relay_leaf_add_proxy lib (handle_value h) proxy_url) in
    if negb (Z.eqb rc 0) then
      let* text := get_error_text rc in
      run print ("Invalid proxy: " +:+ proxy_url +:+ " | Code=" +:+ pretty rc
                 +:+ " | " +:+ text) then
      ret false
    else ret true.

Definition start : Py NState unit :=
  let* h := get_handle in
  if negb (handle_truthy h) then raise (RuntimeError "Client not created")
  else
    let* rc := ffi (Call_start (handle_value h))
                   (relay_leaf_start lib (handle_value h)) in
    _check rc "relay_leaf_start".

Definition stop : Py NState unit :=
  let* h := get_handle in
  if negb (handle_truthy h) then ret tt
  else
    try_pass (ffi (Call_stop (handle_value h))
                  (relay_leaf_stop lib (handle_value h))).

Definition destroy : Py NState unit :=
  let* h := get_handle in
  if negb (handle_truthy h) then ret tt
  else
    run try_pass (ffi (Call_destroy (handle_value h))
                      (relay_leaf_destroy lib (handle_value h))) then
    set_handle HandleNone.

(** The dictionary literal of [get_stats], key by key. *)
Definition stats_dict (stats : RelayLeafStats) : PyDict :=
  [ ("connected", PyBool (connected stats));
    ("connected_nodes", PyInt (connected_nodes stats));
    ("uptime_seconds", PyInt (uptime_seconds stats));
    ("active_streams", PyInt (active_streams stats));
    ("total_streams", PyInt (total_streams stats));
    ("bytes_sent", PyInt (bytes_sent stats));
    ("bytes_received", PyInt (bytes_received stats));
    ("reconnect_count", PyInt (reconnect_count stats));
    ("last_error", _ptr_to_string (last_error stats));
    ("exit_points_json", _ptr_to_string (exit_points_json stats));
    ("node_addresses_json", _ptr_to_string (node_addresses_json stats)) ].

Definition get_stats : Py NState (option PyDict) :=
  let* h := get_handle in
  if negb (handle_truthy h) then ret None
  else
    let* '(rc, stats) := ffi (Call_get_stats (handle_value h))
                             (relay_leaf_get_stats lib (handle_value h)) in
    if negb (Z.eqb rc 0) then
      let* text := get_error_text rc in
      run print ("relay_leaf_get_stats failed: " +:+ pretty rc +:+ " - " +:+ text) then
      ret None
    else
      let result := stats_dict stats in
      run ffi_const Call_free_stats tt then
      ret (Some result).

End RelayLeaf.

(** ** class [RelayOptions] *)

Record RelayOptions := {
  discovery_url : option string;
  partner_id : option string;
  proxies : list string;
  verbose : bool
}.

(** The options [main] is shipped with. *)
Definition main_options : RelayOptions :=
  {| discovery_url := Some "https://api.prx.network/public/relay/nodes";
     partner_id := None;
     proxies := [];
     verbose := false |}.

(** Truth value of an optional [str] argument: [None] and the empty string
    are false. *)
Definition opt_str_truthy (o : option string) : bool :=
  match o with
  | None => false
  | Some s => str_truthy s
  end.

(** ** The console runner [main]

    [running] is cleared by [signal_handler], which the interpreter runs
    between two bytecodes of the main thread once SIGINT or SIGTERM has
    arrived.  The environment is a schedule [Signals]: [sigs i] lists the
    signals handled before the [i]-th evaluation of the test of
    [while running] (for [i = 0], since the handlers were installed).  The
    loop has no bound of its own, so its model takes fuel and yields [None]
    when the fuel is spent while [running] is still true. *)

Inductive Signal := SIGINT | SIGTERM.

Definition Signals := nat -> list Signal.

Definition signal_handler (signum : Signal) (running : bool) : bool := false.

Definition deliver (arrived : list Signal) (running : bool) : bool :=
  fold_left (fun r s => signal_handler s r) arrived running.

Section Main.
Context {NState : Type} (lib : NativeLib NState).

(** [d[k]] *)
Definition getitem (d : PyDict) (k : string) : Py NState PyVal :=
  match dict_lookup k d with
  | Some v => ret v
  | None => raise (KeyError k)
  end.

(** [time.sleep(secs)]: time is not part of the model. *)
Definition sleep (secs : Z) : Py NState unit := ret tt.

Definition print_stats (stats : PyDict) : Py NState unit :=
  let* c := getitem stats "connected" in
  let* n := getitem stats "connected_nodes" in
  let* u := getitem stats "uptime_seconds" in
  let* a := getitem stats "active_streams" in
  let* t := getitem stats "total_streams" in
  let* s := getitem stats "bytes_sent" in
  let* r := getitem stats "bytes_received" in
  print ("Connected=" +:+ py_str c +:+ " | " +:+
         "Nodes=" +:+ py_str n +:+ " | " +:+
         "Uptime=" +:+ py_str u +:+ "s | " +:+
         "Streams=" +:+ py_str a +:+ "/" +:+ py_str t +:+ " | " +:+
         "Sent=" +:+ py_str s +:+ " | " +:+
         "Recv=" +:+ py_str r).

(** One pass through the body of [while running]. *)
Definition poll_once : Py NState unit :=
  let* stats := get_stats lib in
  run match stats with
      | Some ((_ :: _) as d) => print_stats d
      | _ => ret tt
      end then
  sleep 2.

(** [while running: ...], started at test number [i]. *)
Fixpoint poll_loop (sigs : Signals) (fuel i : nat) (running : bool)
  (w : World NState) : option (PyResult unit * World NState) :=
  if deliver (sigs i) running then
    match fuel with
    | O => None
    | S fuel' =>
        match poll_once w with
        | (Return _, w') => poll_loop sigs fuel' (S i) true w'
        | (Raise e, w') => Some (Raise e, w')
        end
    end
  else Some (Return tt, w).

(** [for proxy in options.proxies: if proxy: relay.add_proxy(proxy)] *)
Fixpoint add_proxies (ps : list string) : Py NState unit :=
  match ps with
  | [] => ret tt
  | proxy :: ps' =>
      run (if str_truthy proxy
           then (run add_proxy lib proxy then ret tt)
           else ret tt) then
      add_proxies ps'
  end.

(** The [try] block from [relay.create] up to the loop. *)
Definition main_setup (options : RelayOptions) : Py NState unit :=
  run create lib (verbose options) then
  let* device_id := get_device_id lib in
  run print ("Device ID: " +:+ device_id) then
  run match discovery_url options with
      | Some url => if str_truthy url then set_discovery_url lib url else ret tt
      | None => ret tt
      end then
  run match partner_id options with
      | Some p => if str_truthy p then set_partner_id lib p else ret tt
      | None => ret tt
      end then
  run add_proxies (proxies options) then
  run start lib then
  run print "Relay client started." then
  let* version := get_version lib in
  run print ("Library version: " +:+ version) then
  print "Relay running. Press Ctrl+C to exit.".

(** The [finally] block when [relay] is set. *)
Definition main_finally : Py NState unit :=
  run print "Shutting down relay..." then
  run stop lib then
  run destroy lib then
  print "Client stopped + destroyed.".

(** [main] once [RelayLeaf()] has returned the object in state [w]:
    the [try] block, the [except Exception] handler and the [finally]
    block.  [None]: the loop is still running when the fuel is spent. *)
Definition main_session (options : RelayOptions) (sigs : Signals)
  (fuel : nat) (w : World NState) : option (World NState) :=
  let tried :=
    match main_setup options w with
    | (Return _, w1) => poll_loop sigs fuel 0 true w1
    | (Raise e, w1) => Some (Raise e, w1)
    end in
  match tried with
  | None => None
  | Some (Return _, w2) => Some (snd (main_finally w2))
  | Some (Raise ex, w2) =>
      Some (snd (main_finally (snd (print ("Fatal error: " +:+ exc_str ex) w2))))
  end.

End Main.

(** [main()].  [loaded] is what [ctypes.CDLL] did inside [RelayLeaf()]:
    when it raised, [relay] stays [None] and the [finally] block does
    nothing.  The result is the text printed and the final state of the
    relay object, if one was built. *)
Definition main {NState} (lib : NativeLib NState) (options : RelayOptions)
  (loaded : Outcome NState) (sigs : Signals) (fuel : nat)
  : option (list string * option (World NState)) :=
  match loaded with
  | Raised m => Some (["Fatal error: " +:+ m], None)
  | Returned ns =>
      match main_session lib options sigs fuel (RelayLeaf_init ns) with
      | Some w => Some (stdout w, Some w)
      | None => None
      end
  end.

(** ** The native library, from the specification

    The compiled library is not part of the sources.  What follows is the
    session manager the specification describes (sections 3, 4.1, 4.3, 4.4
    and 4.5), packaged as an instance of [NativeLib]. *)

Module SpecNative.

(** Modelled from the spec: the lifecycle of a session inside
    relay_leaf_win64.dll (section 3: "lifecycle state (enum: Created,
    Started, Stopped, Destroyed)").  A destroyed session is one whose handle
    is no longer in the table. *)
Inductive Lifecycle := Created | Started | Stopped.

(** Modelled from the spec: the session record of relay_leaf_win64.dll
    (section 3): identity, configuration, lifecycle state and the counters
    the stats aggregator snapshots. *)
Record Session := {
  device_id : string;
  cfg_verbose : bool;
  cfg_discovery_url : option string;
  cfg_partner_id : option string;
  cfg_proxies : list string;
  lifecycle : Lifecycle;
  counters : RelayLeafStats
}.

(** Modelled from the spec: what the spec leaves to relay_leaf_win64.dll:
    proxy URL validation (section 3, "validated at registration time"),
    device identifiers ("generated at creation"), the version string and the
    table of messages behind [error_message(code) -> string]. *)
Record NativeParams := {
  valid_proxy : string -> bool;
  fresh_device_id : Z -> string;
  version_text : string;
  error_text : Z -> option string
}.

(** Modelled from the spec: the memory of relay_leaf_win64.dll: the live
    sessions by handle, and the next handle to give out. *)
Record SpecState := {
  sessions : gmap Z Session;
  next_handle : Z
}.

(** Modelled from the spec: relay_leaf_win64.dll as loaded, before any
    session exists. *)
Definition spec_init : SpecState :=
  {| sessions := ∅; next_handle := 1 |}.

(** Modelled from the spec: storing the session of handle [h] in the
    memory of relay_leaf_win64.dll. *)
Definition put (h : Z) (s : Session) (ns : SpecState) : SpecState :=
  {| sessions := <[h := s]> (sessions ns); next_handle := next_handle ns |}.

(** Modelled from the spec: a lifecycle transition of a session of
    relay_leaf_win64.dll; identity, configuration and counters stay. *)
Definition with_lifecycle (l : Lifecycle) (s : Session) : Session :=
  {| device_id := device_id s; cfg_verbose := cfg_verbose s;
     cfg_discovery_url := cfg_discovery_url s;
     cfg_partner_id := cfg_partner_id s; cfg_proxies := cfg_proxies s;
     lifecycle := l; counters := counters s |}.

(** Modelled from the spec: a counter update of a session of
    relay_leaf_win64.dll; identity, configuration and lifecycle stay. *)
Definition with_counters (c : RelayLeafStats) (s : Session) : Session :=
  {| device_id := device_id s; cfg_verbose := cfg_verbose s;
     cfg_discovery_url := cfg_discovery_url s;
     cfg_partner_id := cfg_partner_id s; cfg_proxies := cfg_proxies s;
     lifecycle := lifecycle s; counters := c |}.

Section Operations.
Variable P : NativeParams.

(** Modelled from the spec: relay_leaf_create of relay_leaf_win64.dll
    (section 4.1, [create(verbose) -> SessionHandle]): a fresh session in
    state Created with an empty configuration. *)
Definition spec_create (verbose : bool) (ns : SpecState)
  : Outcome (Z * Z) * SpecState :=
  let h := next_handle ns in
  let s := {| device_id := fresh_device_id P h; cfg_verbose := verbose;
              cfg_discovery_url := None; cfg_partner_id := None;
              cfg_proxies := []; lifecycle := Created;
              counters := RelayLeafStats_new |} in
  (Returned (RelayLeafError.OK, h),
   {| sessions := <[h := s]> (sessions ns); next_handle := h + 1 |}).

(** Modelled from the spec: a configuration call of relay_leaf_win64.dll on
    handle [h]: InvalidHandle when the handle names no live session
    (section 4.1); the code of [change] and no effect when it refuses;
    otherwise the changed session is stored and the code is OK. *)
Definition on_session (h : Z) (change : Session -> Z + Session)
  (ns : SpecState) : Outcome Z * SpecState :=
  match sessions ns !! h with
  | None => (Returned RelayLeafError.INVALID_HANDLE, ns)
  | Some s =>
      match change s with
      | inl code => (Returned code, ns)
      | inr s' => (Returned RelayLeafError.OK, put h s' ns)
      end
  end.

(** Modelled from the spec: relay_leaf_set_discovery_url of
    relay_leaf_win64.dll (section 3: the discovery URL is "immutable once
    Start has been invoked"; the refusal is reported as AlreadyStarted). *)
Definition spec_set_discovery_url (h : Z) (url : string) :=
  on_session h (fun s =>
    match lifecycle s with
    | Created =>
        inr {| device_id := device_id s; cfg_verbose := cfg_verbose s;
               cfg_discovery_url := Some url;
               cfg_partner_id := cfg_partner_id s;
               cfg_proxies := cfg_proxies s; lifecycle := lifecycle s;
               counters := counters s |}
    | _ => inl RelayLeafError.ALREADY_STARTED
    end).

(** Modelled from the spec: relay_leaf_set_partner_id of
    relay_leaf_win64.dll (section 3: configuration is "all set before start,
    immutable after"). *)
Definition spec_set_partner_id (h : Z) (id : string) :=
  on_session h (fun s =>
    match lifecycle s with
    | Created =>
        inr {| device_id := device_id s; cfg_verbose := cfg_verbose s;
               cfg_discovery_url := cfg_discovery_url s;
               cfg_partner_id := Some id;
               cfg_proxies := cfg_proxies s; lifecycle := lifecycle s;
               counters := counters s |}
    | _ => inl RelayLeafError.ALREADY_STARTED
    end).

(** Modelled from the spec: relay_leaf_add_proxy of relay_leaf_win64.dll
    (section 4.1: "fails with InvalidProxy if a proxy URL fails
    scheme/host/port validation, without side effects on other proxies";
    section 3: an "ordered list of proxy endpoints", immutable once started). *)
Definition spec_add_proxy (h : Z) (url : string) :=
  on_session h (fun s =>
    if negb (valid_proxy P url) then inl RelayLeafError.INVALID_PROXY
    else
      match lifecycle s with
      | Created =>
          inr {| device_id := device_id s; cfg_verbose := cfg_verbose s;
                 cfg_discovery_url := cfg_discovery_url s;
                 cfg_partner_id := cfg_partner_id s;
                 cfg_proxies := cfg_proxies s ++ [url];
                 lifecycle := lifecycle s; counters := counters s |}
      | _ => inl RelayLeafError.ALREADY_STARTED
      end).

(** Modelled from the spec: relay_leaf_start of relay_leaf_win64.dll
    (section 4.1, [start() -> Error(AlreadyStarted | StartFailed)];
    section 8: "start() called twice returns AlreadyStarted on the second
    call without side effects"; section 3: "a stopped/destroyed session
    cannot restart"). *)
Definition spec_start (h : Z) :=
  on_session h (fun s =>
    match lifecycle s with
    | Created => inr (with_lifecycle Started s)
    | Started => inl RelayLeafError.ALREADY_STARTED
    | Stopped => inl RelayLeafError.START_FAILED
    end).

(** Modelled from the spec: relay_leaf_stop of relay_leaf_win64.dll
    (section 4.1: "idempotent, never fails observably"): a started session
    becomes Stopped, any other live session is left as it is. *)
Definition spec_stop (h : Z) :=
  on_session h (fun s =>
    match lifecycle s with
    | Started => inr (with_lifecycle Stopped s)
    | _ => inl RelayLeafError.OK
    end).

(** Modelled from the spec: relay_leaf_destroy of relay_leaf_win64.dll
    (section 4.1: "releases all owned resources, invalidates the handle";
    section 5: "a destroy implies a stop"). *)
Definition spec_destroy (h : Z) (ns : SpecState) : Outcome Z * SpecState :=
  match sessions ns !! h with
  | None => (Returned RelayLeafError.INVALID_HANDLE, ns)
  | Some _ =>
      (Returned RelayLeafError.OK,
       {| sessions := delete h (sessions ns); next_handle := next_handle ns |})
  end.

(** Modelled from the spec: relay_leaf_get_stats of relay_leaf_win64.dll
    (section 4.5: a point-in-time copy of the counters; "Fails with
    NotStarted if called before start").  On failure the caller's struct is
    left as it was passed in, zeroed. *)
Definition spec_get_stats (h : Z) (ns : SpecState)
  : Outcome (Z * RelayLeafStats) * SpecState :=
  match sessions ns !! h with
  | None => (Returned (RelayLeafError.INVALID_HANDLE, RelayLeafStats_new), ns)
  | Some s =>
      match lifecycle s with
      | Created => (Returned (RelayLeafError.NOT_STARTED, RelayLeafStats_new), ns)
      | _ => (Returned (RelayLeafError.OK, counters s), ns)
      end
  end.

(** Modelled from the spec: relay_leaf_get_device_id of
    relay_leaf_win64.dll (section 3: the device ID is "generated at
    creation, immutable"); NULL for a handle that names no session. *)
Definition spec_get_device_id (h : Z) (ns : SpecState)
  : Outcome (option string) * SpecState :=
  (Returned (device_id <$> sessions ns !! h), ns).

(** Modelled from the spec: the export table of relay_leaf_win64.dll
    (section 6, "Binding surface"). *)
Definition SpecLib : NativeLib SpecState :=
  {| relay_leaf_create := spec_create;
     relay_leaf_set_discovery_url := spec_set_discovery_url;
     relay_leaf_set_partner_id := spec_set_partner_id;
     relay_leaf_add_proxy := spec_add_proxy;
     relay_leaf_start := spec_start;
     relay_leaf_stop := spec_stop;
     relay_leaf_destroy := spec_destroy;
     relay_leaf_get_stats := spec_get_stats;
     relay_leaf_get_device_id := spec_get_device_id;
     relay_leaf_version := Some (version_text P);
     relay_leaf_error_message := error_text P |}.

End Operations.

(** Modelled from the spec: what the background threads of
    relay_leaf_win64.dll do to a started session between two calls of the
    binding (sections 4.3 and 4.4). *)
Inductive Activity :=
| Stream_opened
| Stream_closed
| Transferred (sent received : Z)
| Connection_lost (err : string)
| Nodes_changed (nodes : Z) (exit_points addresses : string)
| Second_elapsed.

(** Modelled from the spec: the counter updates of relay_leaf_win64.dll
    (section 4.4: opening a stream raises the active and the total count,
    "Stream close always decrements active count and never the total";
    section 4.3: "On connection loss: increments reconnect counter, ...
    marks last error message").  The counters are integers without a
    bound: the spec calls the total a "monotonic lifetime counter" and
    describes no overflow.  A close with no stream open changes nothing. *)
Definition record_activity (a : Activity) (c : RelayLeafStats) : RelayLeafStats :=
  match a with
  | Stream_opened =>
      {| uptime_seconds := uptime_seconds c;
         total_streams := total_streams c + 1;
         bytes_sent := bytes_sent c; bytes_received := bytes_received c;
         reconnect_count := reconnect_count c; last_error := last_error c;
         exit_points_json := exit_points_json c;
         node_addresses_json := node_addresses_json c;
         active_streams := active_streams c + 1;
         connected_nodes := connected_nodes c; connected := connected c |}
  | Stream_closed =>
      {| uptime_seconds := uptime_seconds c;
         total_streams := total_streams c;
         bytes_sent := bytes_sent c; bytes_received := bytes_received c;
         reconnect_count := reconnect_count c; last_error := last_error c;
         exit_points_json := exit_points_json c;
         node_addresses_json := node_addresses_json c;
         active_streams := Z.max 0 (active_streams c - 1);
         connected_nodes := connected_nodes c; connected := connected c |}
  | Transferred sent received =>
      {| uptime_seconds := uptime_seconds c;
         total_streams := total_streams c;
         bytes_sent := bytes_sent c + Z.max 0 sent;
         bytes_received := bytes_received c + Z.max 0 received;
         reconnect_count := reconnect_count c; last_error := last_error c;
         exit_points_json := exit_points_json c;
         node_addresses_json := node_addresses_json c;
         active_streams := active_streams c;
         connected_nodes := connected_nodes c; connected := connected c |}
  | Connection_lost err =>
      {| uptime_seconds := uptime_seconds c;
         total_streams := total_streams c;
         bytes_sent := bytes_sent c; bytes_received := bytes_received c;
         reconnect_count := reconnect_count c + 1; last_error := Some err;
         exit_points_json := exit_points_json c;
         node_addresses_json := node_addresses_json c;
         active_streams := active_streams c;
         connected_nodes := connected_nodes c; connected := connected c |}
  | Nodes_changed nodes exit_points addresses =>
      {| uptime_seconds := uptime_seconds c;
         total_streams := total_streams c;
         bytes_sent := bytes_sent c; bytes_received := bytes_received c;
         reconnect_count := reconnect_count c; last_error := last_error c;
         exit_points_json := Some exit_points;
         node_addresses_json := Some addresses;
         active_streams := active_streams c;
         connected_nodes := Z.max 0 nodes;
         connected := Z.ltb 0 nodes |}
  | Second_elapsed =>
      {| uptime_seconds := uptime_seconds c + 1;
         total_streams := total_streams c;
         bytes_sent := bytes_sent c; bytes_received := bytes_received c;
         reconnect_count := reconnect_count c; last_error := last_error c;
         exit_points_json := exit_points_json c;
         node_addresses_json := node_addresses_json c;
         active_streams := active_streams c;
         connected_nodes := connected_nodes c; connected := connected c |}
  end.

(** Modelled from the spec: background activity of relay_leaf_win64.dll on
    the session of handle [h]; only a started session has background loops
    (section 5: "no further counter mutation after stop() returns"). *)
Definition background (a : Activity) (h : Z) (ns : SpecState) : SpecState :=
  match sessions ns !! h with
  | Some s =>
      match lifecycle s with
      | Started => put h (with_counters (record_activity a (counters s)) s) ns
      | _ => ns
      end
  | None => ns
  end.

End SpecNative.

(** ** Call sequences *)

(** The two teardown methods, and a caller that invokes them in any
    order, any number of times. *)
Inductive Teardown := Stop | Destroy.

Definition teardown {NState} (lib : NativeLib NState) (t : Teardown)
  : Py NState unit :=
  match t with
  | Stop => stop lib
  | Destroy => destroy lib
  end.

Fixpoint teardowns {NState} (lib : NativeLib NState) (ts : list Teardown)
  : Py NState unit :=
  match ts with
  | [] => ret tt
  | t :: ts' => run teardown lib t then teardowns lib ts'
  end.

(** The teardown entries of a call record. *)
Definition is_teardown (c : NativeCall) : bool :=
  match c with
  | Call_stop _ | Call_destroy _ => true
  | _ => false
  end.

(** What the state of a relay object and of the library keeps of a world:
    the call record and the printed text are left out. *)
Definition session_state {NState} (w : World NState) : Handle * NState :=
  (_handle w, dll w).

(** The lifetime of one session against the library of the
    specification: calls of the binding other than [create] and [destroy],
    interleaved with the library's background activity. *)
Inductive Action :=
| Do_get_stats
| Do_get_device_id
| Do_set_discovery_url (url : string)
| Do_set_partner_id (id : string)
| Do_add_proxy (url : string)
| Do_start
| Do_stop
| Library_activity (a : SpecNative.Activity) (h : Z).

Section Lifetime.
Variable P : SpecNative.NativeParams.
Local Abbreviation lib := (SpecNative.SpecLib P).

(** One action; the result is the dictionary a successful poll returned. *)
Definition perform (a : Action) (w : World SpecNative.SpecState)
  : option PyDict * World SpecNative.SpecState :=
  match a with
  | Do_get_stats =>
      match get_stats lib w with
      | (Return r, w') => (r, w')
      | (Raise _, w') => (None, w')
      end
  | Do_get_device_id => (None, snd (get_device_id lib w))
  | Do_set_discovery_url url => (None, snd (set_discovery_url lib url w))
  | Do_set_partner_id id => (None, snd (set_partner_id lib id w))
  | Do_add_proxy url => (None, snd (add_proxy lib url w))
  | Do_start => (None, snd (start lib w))
  | Do_stop => (None, snd (stop lib w))
  | Library_activity a h =>
      (None, Build_World (SpecNative.background a h (dll w)) (_handle w)
                         (calls w) (stdout w))
  end.

(** The dictionaries returned by the successful polls of a run, in order. *)
Fixpoint polls (acts : list Action) (w : World SpecNative.SpecState)
  : list PyDict :=
  match acts with
  | [] => []
  | a :: acts' =>
      match perform a w with
      | (Some d, w') => d :: polls acts' w'
      | (None, w') => polls acts' w'
      end
  end.

End Lifetime.

(** The message for a code: the library's own when it has a non-empty
    one, and a text made of the code otherwise. *)
Definition error_text_of {NState} (lib : NativeLib NState) (code : Z) : string :=
  match relay_leaf_error_message lib code with
  | Some m => if str_truthy m then m else "error_code=" +:+ pretty code
  | None => "error_code=" +:+ pretty code
  end.

(** The integer found under [key] in each dictionary that has one. *)
Definition reported (key : string) (ds : list PyDict) : list Z :=
  omap (fun d => match dict_lookup key d with
                 | Some (PyInt n) => Some n
                 | _ => None
                 end) ds.

(** A concrete library for the examples: proxies must use socks5 or http. *)
Definition sample_params : SpecNative.NativeParams :=
  {| SpecNative.valid_proxy := fun url =>
       String.prefix "socks5://" url || String.prefix "http://" url;
     SpecNative.fresh_device_id := fun h => "device-" +:+ pretty h;
     SpecNative.version_text := "1.0.0";
     SpecNative.error_text := fun code =>
       if Z.eqb code 7 then Some "invalid proxy" else
       if Z.eqb code 6 then Some "not started" else None |}.

Definition sample_lib : NativeLib SpecNative.SpecState :=
  SpecNative.SpecLib sample_params.

(** A relay object fresh from [RelayLeaf()], then after [create()], then
    after [start()]. *)
Definition sample_fresh : World SpecNative.SpecState :=
  RelayLeaf_init SpecNative.spec_init.

Definition sample_created : World SpecNative.SpecState :=
  snd (create sample_lib false sample_fresh).

Definition sample_started : World SpecNative.SpecState :=
  snd (start sample_lib sample_created).

(** The struct of a started session after one stream was opened, one
    connection was lost and two nodes were found: the three strings are
    set. *)
Definition sample_active_stats : RelayLeafStats :=
  SpecNative.record_activity
    (SpecNative.Nodes_changed 2 "[10.0.0.1, 10.0.0.2]" "[node-a:443, node-b:443]")
    (SpecNative.record_activity (SpecNative.Connection_lost "connection reset")
       (SpecNative.record_activity SpecNative.Stream_opened RelayLeafStats_new)).

(** The started relay object once the library has seen that activity. *)
Definition sample_active : World SpecNative.SpecState :=
  Build_World
    (SpecNative.background
       (SpecNative.Nodes_changed 2 "[10.0.0.1, 10.0.0.2]" "[node-a:443, node-b:443]") 1
       (SpecNative.background (SpecNative.Connection_lost "connection reset") 1
          (SpecNative.background SpecNative.Stream_opened 1 (dll sample_started))))
    (_handle sample_started) (calls sample_started) (stdout sample_started).

(** A computation that leaves [self._handle] alone and makes no teardown
    call, whatever it returns or raises. *)
Definition keeps_session {NState A} (c : Py NState A) : Prop :=
  forall w,
    _handle (snd (c w)) = _handle w
    /\ filter is_teardown (calls (snd (c w))) = filter is_teardown (calls w).

(** A computation that does not reach the library's memory. *)
Definition keeps_dll {NState A} (c : Py NState A) : Prop :=
  forall w, dll (snd (c w)) = dll w.

(** The counters the library holds for the session of the relay object,
    if that session is alive. *)
Definition own_counters (w : World SpecNative.SpecState) : option RelayLeafStats :=
  SpecNative.counters <$>
    SpecNative.sessions (dll w) !! handle_value (_handle w).

(** The counter [field] of the own session is in [w'] at least what it
    was in [w], and the session is alive in both or in neither. *)
Definition not_lower (field : RelayLeafStats -> Z)
  (w w' : World SpecNative.SpecState) : Prop :=
  match own_counters w with
  | None => own_counters w' = None
  | Some c => exists c', own_counters w' = Some c' /\ field c <= field c'
  end.

(** The release call [_ptr_to_string_and_free] makes for a pointer: one
    for a string, none for NULL. *)
Definition released (ptr : option string) : list NativeCall :=
  match ptr with
  | Some s => [Call_free_string s]
  | None => []
  end.

(** The handle a native call was given, for the calls that take one. *)
Definition call_handle (c : NativeCall) : option Z :=
  match c with
  | Call_set_discovery_url h _ | Call_set_partner_id h _ | Call_add_proxy h _
  | Call_start h | Call_stop h | Call_destroy h | Call_get_stats h
  | Call_get_device_id h => Some h
  | Call_create _ | Call_free_stats | Call_free_string _ | Call_version
  | Call_error_message _ => None
  end.

Definition is_get_stats (c : NativeCall) : bool :=
  match c with
  | Call_get_stats _ => true
  | _ => false
  end.

Definition is_add_proxy (c : NativeCall) : bool :=
  match c with
  | Call_add_proxy _ _ => true
  | _ => false
  end.

(** The public methods of [RelayLeaf], for a caller that invokes them in
    any order and goes on after an exception. *)
Inductive Method :=
| M_get_error_text (code : Z)
| M_get_version
| M_create (verbose : bool)
| M_get_device_id
| M_set_discovery_url (url : string)
| M_set_partner_id (partner_id : string)
| M_add_proxy (proxy_url : string)
| M_start
| M_stop
| M_destroy
| M_get_stats.

Definition is_create (m : Method) : bool :=
  match m with
  | M_create _ => true
  | _ => false
  end.

(** The world after one method call, whatever it returned or raised. *)
Definition invoke {NState} (lib : NativeLib NState) (m : Method)
  (w : World NState) : World NState :=
  match m with
  | M_get_error_text code => snd (get_error_text lib code w)
  | M_get_version => snd (get_version lib w)
  | M_create v => snd (create lib v w)
  | M_get_device_id => snd (get_device_id lib w)
  | M_set_discovery_url url => snd (set_discovery_url lib url w)
  | M_set_partner_id id => snd (set_partner_id lib id w)
  | M_add_proxy url => snd (add_proxy lib url w)
  | M_start => snd (start lib w)
  | M_stop => snd (stop lib w)
  | M_destroy => snd (destroy lib w)
  | M_get_stats => snd (get_stats lib w)
  end.

Definition invoke_all {NState} (lib : NativeLib NState) (ms : list Method)
  (w : World NState) : World NState :=
  fold_left (fun w m => invoke lib m w) ms w.

(** A library whose relay_leaf_create reports success without writing a
    handle; the rest is the sample library. *)
Definition null_create_lib : NativeLib SpecNative.SpecState :=
  {| relay_leaf_create := fun _ ns => (Returned (0, 0), ns);
     relay_leaf_set_discovery_url := relay_leaf_set_discovery_url sample_lib;
     relay_leaf_set_partner_id := relay_leaf_set_partner_id sample_lib;
     relay_leaf_add_proxy := relay_leaf_add_proxy sample_lib;
     relay_leaf_start := relay_leaf_start sample_lib;
     relay_leaf_stop := relay_leaf_stop sample_lib;
     relay_leaf_destroy := relay_leaf_destroy sample_lib;
     relay_leaf_get_stats := relay_leaf_get_stats sample_lib;
     relay_leaf_get_device_id := relay_leaf_get_device_id sample_lib;
     relay_leaf_version := relay_leaf_version sample_lib;
     relay_leaf_error_message := relay_leaf_error_message sample_lib |}.

(** A library in which every call on a handle faults; the lookups are
    those of the sample library. *)
Definition faulty_lib : NativeLib SpecNative.SpecState :=
  {| relay_leaf_create := fun _ ns => (Raised "access violation", ns);
     relay_leaf_set_discovery_url := fun _ _ ns => (Raised "access violation", ns);
     relay_leaf_set_partner_id := fun _ _ ns => (Raised "access violation", ns);
     relay_leaf_add_proxy := fun _ _ ns => (Raised "access violation", ns);
     relay_leaf_start := fun _ ns => (Raised "access violation", ns);
     relay_leaf_stop := fun _ ns => (Raised "access violation", ns);
     relay_leaf_destroy := fun _ ns => (Raised "access violation", ns);
     relay_leaf_get_stats := fun _ ns => (Raised "access violation", ns);
     relay_leaf_get_device_id := fun _ ns => (Raised "access violation", ns);
     relay_leaf_version := relay_leaf_version sample_lib;
     relay_leaf_error_message := relay_leaf_error_message sample_lib |}.

(** A native call an object with handle [h0] may make: one that takes no
    handle, or one that is given [h0], which is then live. *)
Definition own_handle_call (h0 : Handle) (c : NativeCall) : bool :=
  match call_handle c with
  | None => true
  | Some h => handle_truthy h0 && Z.eqb h (handle_value h0)
  end.

(** A computation that, run by an object with handle [h0], only adds such
    calls to the record and keeps the handle. *)
Definition own_calls {NState A} (h0 : Handle) (c : Py NState A) : Prop :=
  forall w,
    _handle w = h0 ->
    exists extra,
      calls (snd (c w)) = calls w ++ extra
      /\ forallb (own_handle_call h0) extra = true
      /\ _handle (snd (c w)) = h0.

Definition is_start (c : NativeCall) : bool :=
  match c with
  | Call_start _ => true
  | _ => false
  end.

(** The calls that configure a session. *)
Definition is_config (c : NativeCall) : bool :=
  match c with
  | Call_set_discovery_url _ _ | Call_set_partner_id _ _ | Call_add_proxy _ _ => true
  | _ => false
  end.

(** A computation all of whose native calls satisfy [ok]. *)
Definition adds_only {NState A} (ok : NativeCall -> bool) (c : Py NState A) : Prop :=
  forall w,
    exists extra,
      calls (snd (c w)) = calls w ++ extra /\ forallb ok extra = true.

(** A computation whose native calls fall into a first part without
    relay_leaf_start and a second part without configuration calls. *)
Definition configures_first {NState A} (c : Py NState A) : Prop :=
  forall w,
    exists before after,
      calls (snd (c w)) = calls w ++ before ++ after
      /\ forallb (fun c => negb (is_start c)) before = true
      /\ forallb (fun c => negb (is_config c)) after = true.

(** * Verification *)

(** Unfolds the monad down to pairs of a result and a world. *)
Ltac py_unfold :=
  unfold bind, ret, raise, get_handle, set_handle, print, ffi, ffi_const,
    try_pass in *.

(** ** Error codes *)

(** C7: the error-code constants of the binding are OK=0, NullParam=1,
    InvalidHandle=2, CreateFailed=3, StartFailed=4, AlreadyStarted=5,
    NotStarted=6, InvalidProxy=7 and Internal=99, and the class defines no
    other attribute. *)
Theorem error_code_constants :
  RelayLeafError.members =
    [ ("OK", 0); ("NULL_PARAM", 1); ("INVALID_HANDLE", 2);
      ("CREATE_FAILED", 3); ("START_FAILED", 4); ("ALREADY_STARTED", 5);
      ("NOT_STARTED", 6); ("INVALID_PROXY", 7); ("INTERNAL", 99) ]
  /\ RelayLeafError.OK = 0 /\ RelayLeafError.NULL_PARAM = 1
  /\ RelayLeafError.INVALID_HANDLE = 2 /\ RelayLeafError.CREATE_FAILED = 3
  /\ RelayLeafError.START_FAILED = 4 /\ RelayLeafError.ALREADY_STARTED = 5
  /\ RelayLeafError.NOT_STARTED = 6 /\ RelayLeafError.INVALID_PROXY = 7
  /\ RelayLeafError.INTERNAL = 99
  /\ NoDup (map snd RelayLeafError.members).
Proof.
  repeat split.
  apply (bool_decide_unpack _). vm_compute. exact I.
Qed.

Section BindingFacts.
Context {NState : Type} (lib : NativeLib NState).

(** ** The handle guard *)

Lemma set_discovery_url_unguarded (url : string) (w : World NState) :
  handle_truthy (_handle w) = false ->
  set_discovery_url lib url w = (Raise (RuntimeError "Client not created"), w).
Proof. intros H. unfold set_discovery_url. py_unfold. now rewrite H. Qed.

Lemma set_partner_id_unguarded (id : string) (w : World NState) :
  handle_truthy (_handle w) = false ->
  set_partner_id lib id w = (Raise (RuntimeError "Client not created"), w).
Proof. intros H. unfold set_partner_id. py_unfold. now rewrite H. Qed.

Lemma add_proxy_unguarded (url : string) (w : World NState) :
  handle_truthy (_handle w) = false ->
  add_proxy lib url w = (Raise (RuntimeError "Client not created"), w).
Proof. intros H. unfold add_proxy. py_unfold. now rewrite H. Qed.

Lemma start_unguarded (w : World NState) :
  handle_truthy (_handle w) = false ->
  start lib w = (Raise (RuntimeError "Client not created"), w).
Proof. intros H. unfold start. py_unfold. now rewrite H. Qed.

Lemma stop_unguarded (w : World NState) :
  handle_truthy (_handle w) = false -> stop lib w = (Return tt, w).
Proof. intros H. unfold stop. py_unfold. now rewrite H. Qed.

Lemma destroy_unguarded (w : World NState) :
  handle_truthy (_handle w) = false -> destroy lib w = (Return tt, w).
Proof. intros H. unfold destroy. py_unfold. now rewrite H. Qed.

Lemma get_device_id_unguarded (w : World NState) :
  handle_truthy (_handle w) = false -> get_device_id lib w = (Return "", w).
Proof. intros H. unfold get_device_id. py_unfold. now rewrite H. Qed.

Lemma get_stats_unguarded (w : World NState) :
  handle_truthy (_handle w) = false -> get_stats lib w = (Return None, w).
Proof. intros H. unfold get_stats. py_unfold. now rewrite H. Qed.

(** [destroy] always leaves [self._handle] false: [None] when it ran, the
    NULL pointer it found otherwise. *)
Lemma destroy_clears_handle (w : World NState) :
  handle_truthy (_handle (snd (destroy lib w))) = false.
Proof.
  unfold destroy. py_unfold.
  destruct (handle_truthy (_handle w)) eqn:H; simpl; [ | exact H ].
  destruct (relay_leaf_destroy lib (handle_value (_handle w)) (dll w)) as [[rc | m] ns];
    reflexivity.
Qed.

(** ** Error texts *)

Lemma get_error_text_returns (code : Z) (w : World NState) :
  fst (get_error_text lib code w) = Return (error_text_of lib code)
  /\ session_state (snd (get_error_text lib code w)) = session_state w
  /\ stdout (snd (get_error_text lib code w)) = stdout w
  /\ filter is_teardown (calls (snd (get_error_text lib code w)))
     = filter is_teardown (calls w).
Proof.
  unfold get_error_text, _ptr_to_string_and_free, error_text_of, session_state.
  py_unfold.
  destruct (relay_leaf_error_message lib code) as [m | ]; simpl;
    rewrite ?filter_app; simpl; rewrite ?app_nil_r; auto.
Qed.

Lemma check_zero (api_name : string) (w : World NState) :
  _check lib 0 api_name w = (Return tt, w).
Proof. reflexivity. Qed.

Lemma check_nonzero (code : Z) (api_name : string) (w : World NState) :
  code <> 0 ->
  fst (_check lib code api_name w)
  = Raise (RuntimeError (api_name +:+ " failed: " +:+ pretty code +:+ " ("
                         +:+ error_text_of lib code +:+ ")")).
Proof.
  intros Hc. unfold _check.
  destruct (Z.eqb_spec code 0) as [-> | _]; [ contradiction | ]. simpl.
  unfold bind at 1.
  destruct (get_error_text_returns code w) as (Hr & _).
  destruct (get_error_text lib code w) as [r w']. simpl in Hr. subst r.
  reflexivity.
Qed.

(** [_check] touches neither the relay object nor the library. *)
Lemma check_quiet (code : Z) (api_name : string) (w : World NState) :
  session_state (snd (_check lib code api_name w)) = session_state w
  /\ stdout (snd (_check lib code api_name w)) = stdout w
  /\ filter is_teardown (calls (snd (_check lib code api_name w)))
     = filter is_teardown (calls w).
Proof.
  unfold _check. destruct (Z.eqb code 0); simpl; [ auto | ].
  unfold bind, raise.
  destruct (get_error_text_returns code w) as (Hr & Hs & Ho & Hc).
  destruct (get_error_text lib code w) as [r w']. simpl in *. subst r.
  auto.
Qed.

(** C5: [_check] raises exactly when the code is not zero; the error is a
    RuntimeError whose message carries the API name, the code and the
    library's message for that code, or the text error_code=<code> when the
    library has none.  On code zero nothing happens at all. *)
Theorem check_raises_iff_nonzero (code : Z) (api_name : string) (w : World NState) :
  ((exists e, fst (_check lib code api_name w) = Raise e) <-> code <> 0)
  /\ (code = 0 -> _check lib code api_name w = (Return tt, w))
  /\ (code <> 0 ->
      fst (_check lib code api_name w)
      = Raise (RuntimeError (api_name +:+ " failed: " +:+ pretty code +:+ " ("
                             +:+ error_text_of lib code +:+ ")"))
      /\ (forall m, relay_leaf_error_message lib code = Some m ->
                    str_truthy m = true -> error_text_of lib code = m)
      /\ ((relay_leaf_error_message lib code = None
           \/ relay_leaf_error_message lib code = Some "") ->
          error_text_of lib code = "error_code=" +:+ pretty code)).
Proof.
  split; [ split | split ].
  - intros [e He] ->. rewrite check_zero in He. discriminate.
  - intros Hc. eexists. exact (check_nonzero code api_name w Hc).
  - intros ->. apply check_zero.
  - intros Hc. split; [ exact (check_nonzero code api_name w Hc) | split ].
    + intros m Hm Ht. unfold error_text_of. now rewrite Hm, Ht.
    + intros [Hm | Hm]; unfold error_text_of; now rewrite Hm.
Qed.

(** C1: on a relay object without a session ([self._handle] is [None]
    before [create] and after [destroy], or a NULL pointer),
    [set_discovery_url], [set_partner_id], [add_proxy] and [start] raise
    RuntimeError and leave the whole world as it was: no entry is added to
    the record of native calls. *)
Theorem configuration_requires_handle
  (w : World NState) (url partner proxy : string) :
  handle_truthy (_handle w) = false ->
  set_discovery_url lib url w = (Raise (RuntimeError "Client not created"), w)
  /\ set_partner_id lib partner w = (Raise (RuntimeError "Client not created"), w)
  /\ add_proxy lib proxy w = (Raise (RuntimeError "Client not created"), w)
  /\ start lib w = (Raise (RuntimeError "Client not created"), w).
Proof.
  intros H. repeat split.
  - now apply set_discovery_url_unguarded.
  - now apply set_partner_id_unguarded.
  - now apply add_proxy_unguarded.
  - now apply start_unguarded.
Qed.

(** C10: without a session handle [get_device_id] returns the empty
    string and [get_stats] returns [None]; both leave the world as it was
    (no native call, nothing printed), while the configuration methods
    raise in the same state. *)
Theorem queries_without_handle (w : World NState) :
  handle_truthy (_handle w) = false ->
  get_device_id lib w = (Return "", w)
  /\ get_stats lib w = (Return None, w)
  /\ (forall url, exists e, fst (set_discovery_url lib url w) = Raise e)
  /\ (forall id, exists e, fst (set_partner_id lib id w) = Raise e)
  /\ (forall url, exists e, fst (add_proxy lib url w) = Raise e)
  /\ (exists e, fst (start lib w) = Raise e).
Proof.
  intros H. split; [ now apply get_device_id_unguarded | ].
  split; [ now apply get_stats_unguarded | ].
  repeat split; intros; eexists.
  - now rewrite set_discovery_url_unguarded.
  - now rewrite set_partner_id_unguarded.
  - now rewrite add_proxy_unguarded.
  - now rewrite start_unguarded.
Qed.

(** ** Statistics *)

(** C6: when the native call succeeds, [get_stats] returns a dictionary
    with exactly the eleven keys connected, connected_nodes,
    uptime_seconds, active_streams, total_streams, bytes_sent,
    bytes_received, reconnect_count, last_error, exit_points_json and
    node_addresses_json, each holding the field of that name of the struct
    the library filled: the bool and the seven integers as they are, and
    for each of the three string pointers the text it points to, or [None]
    when it is NULL. *)
Theorem get_stats_fields
  (w : World NState) (st : RelayLeafStats) (ns : NState) :
  handle_truthy (_handle w) = true ->
  relay_leaf_get_stats lib (handle_value (_handle w)) (dll w)
    = (Returned (0, st), ns) ->
  exists d,
    fst (get_stats lib w) = Return (Some d)
    /\ dict_keys d =
         [ "connected"; "connected_nodes"; "uptime_seconds"; "active_streams";
           "total_streams"; "bytes_sent"; "bytes_received"; "reconnect_count";
           "last_error"; "exit_points_json"; "node_addresses_json" ]
    /\ dict_lookup "connected" d = Some (PyBool (connected st))
    /\ dict_lookup "connected_nodes" d = Some (PyInt (connected_nodes st))
    /\ dict_lookup "uptime_seconds" d = Some (PyInt (uptime_seconds st))
    /\ dict_lookup "active_streams" d = Some (PyInt (active_streams st))
    /\ dict_lookup "total_streams" d = Some (PyInt (total_streams st))
    /\ dict_lookup "bytes_sent" d = Some (PyInt (bytes_sent st))
    /\ dict_lookup "bytes_received" d = Some (PyInt (bytes_received st))
    /\ dict_lookup "reconnect_count" d = Some (PyInt (reconnect_count st))
    /\ dict_lookup "last_error" d
         = Some (match last_error st with
                 | Some text => PyStr text
                 | None => PyNone
                 end)
    /\ dict_lookup "exit_points_json" d
         = Some (match exit_points_json st with
                 | Some text => PyStr text
                 | None => PyNone
                 end)
    /\ dict_lookup "node_addresses_json" d
         = Some (match node_addresses_json st with
                 | Some text => PyStr text
                 | None => PyNone
                 end)
    /\ length d = 11%nat.
Proof.
  intros Hh Hn. exists (stats_dict st).
  split.
  - unfold get_stats. py_unfold. rewrite Hh. simpl. rewrite Hn. reflexivity.
  - unfold stats_dict, _ptr_to_string.
    destruct (last_error st), (exit_points_json st), (node_addresses_json st);
      repeat split.
Qed.

End BindingFacts.

Lemma configuration_requires_handle_witness :
  handle_truthy (_handle (snd (destroy sample_lib sample_started))) = false
  /\ start sample_lib (snd (destroy sample_lib sample_started))
     = (Raise (RuntimeError "Client not created"),
        snd (destroy sample_lib sample_started)).
Proof.
  split; [ reflexivity | ].
  apply (configuration_requires_handle sample_lib
           (snd (destroy sample_lib sample_started)) "" "" "").
  reflexivity.
Defined.

Lemma queries_without_handle_witness :
  handle_truthy (_handle sample_fresh) = false
  /\ get_stats sample_lib sample_fresh = (Return None, sample_fresh).
Proof.
  split; [ reflexivity | ].
  apply (queries_without_handle sample_lib sample_fresh).
  reflexivity.
Defined.

Lemma get_stats_fields_witness :
  exists d,
    fst (get_stats sample_lib sample_active) = Return (Some d)
    /\ dict_lookup "connected" d = Some (PyBool true)
    /\ dict_lookup "connected_nodes" d = Some (PyInt 2)
    /\ dict_lookup "total_streams" d = Some (PyInt 1)
    /\ dict_lookup "reconnect_count" d = Some (PyInt 1)
    /\ dict_lookup "last_error" d = Some (PyStr "connection reset")
    /\ dict_lookup "exit_points_json" d = Some (PyStr "[10.0.0.1, 10.0.0.2]")
    /\ dict_lookup "node_addresses_json" d = Some (PyStr "[node-a:443, node-b:443]").
Proof.
  destruct (get_stats_fields sample_lib sample_active sample_active_stats
              (dll sample_active))
    as (d & Hd & _ & Hc & Hn & _ & _ & Ht & _ & _ & Hr & He & Hx & Ha & _).
  - reflexivity.
  - reflexivity.
  - exists d. repeat split; assumption.
Defined.

(** ** Teardown *)

Section TeardownFacts.
Context {NState : Type} (lib : NativeLib NState).

(** What [stop] does on a live handle: one native call, whose outcome is
    dropped. *)
Lemma stop_guarded (w : World NState) :
  handle_truthy (_handle w) = true ->
  stop lib w =
    (Return tt,
     Build_World (snd (relay_leaf_stop lib (handle_value (_handle w)) (dll w)))
                 (_handle w)
                 (calls w ++ [Call_stop (handle_value (_handle w))])
                 (stdout w)).
Proof.
  intros H. unfold stop. py_unfold. rewrite H. simpl.
  destruct (relay_leaf_stop lib (handle_value (_handle w)) (dll w)) as [[rc | m] ns];
    reflexivity.
Qed.

(** What [destroy] does on a live handle: one native call, whose outcome is
    dropped, and the handle is forgotten. *)
Lemma destroy_guarded (w : World NState) :
  handle_truthy (_handle w) = true ->
  destroy lib w =
    (Return tt,
     Build_World (snd (relay_leaf_destroy lib (handle_value (_handle w)) (dll w)))
                 HandleNone
                 (calls w ++ [Call_destroy (handle_value (_handle w))])
                 (stdout w)).
Proof.
  intros H. unfold destroy. py_unfold. rewrite H. simpl.
  destruct (relay_leaf_destroy lib (handle_value (_handle w)) (dll w)) as [[rc | m] ns];
    reflexivity.
Qed.

Lemma stop_returns (w : World NState) : fst (stop lib w) = Return tt.
Proof.
  destruct (handle_truthy (_handle w)) eqn:H.
  - now rewrite stop_guarded.
  - now rewrite stop_unguarded.
Qed.

Lemma destroy_returns (w : World NState) : fst (destroy lib w) = Return tt.
Proof.
  destruct (handle_truthy (_handle w)) eqn:H.
  - now rewrite destroy_guarded.
  - now rewrite destroy_unguarded.
Qed.

Lemma teardown_returns (t : Teardown) (w : World NState) :
  fst (teardown lib t w) = Return tt.
Proof. destruct t; [ apply stop_returns | apply destroy_returns ]. Qed.

Lemma teardowns_cons (t : Teardown) (ts : list Teardown) (w : World NState) :
  teardowns lib (t :: ts) w = teardowns lib ts (snd (teardown lib t w)).
Proof.
  simpl. unfold bind. pose proof (teardown_returns t w) as H.
  destruct (teardown lib t w) as [r w']. simpl in *. now subst r.
Qed.

Lemma teardowns_return (ts : list Teardown) (w : World NState) :
  fst (teardowns lib ts w) = Return tt.
Proof.
  revert w. induction ts as [ | t ts IH]; intros w; [ reflexivity | ].
  rewrite teardowns_cons. apply IH.
Qed.

(** Without a live handle every teardown sequence does nothing. *)
Lemma teardowns_unguarded (ts : list Teardown) (w : World NState) :
  handle_truthy (_handle w) = false -> teardowns lib ts w = (Return tt, w).
Proof.
  intros H. induction ts as [ | t ts IH]; [ reflexivity | ].
  rewrite teardowns_cons.
  assert (Ht : teardown lib t w = (Return tt, w))
    by (destruct t; [ now apply stop_unguarded | now apply destroy_unguarded ]).
  rewrite Ht. exact IH.
Qed.

(** Repeated [stop] on a live handle forwards every call to the library. *)
Lemma stops_calls (n : nat) (w : World NState) :
  handle_truthy (_handle w) = true ->
  calls (snd (teardowns lib (replicate n Stop) w))
  = calls w ++ replicate n (Call_stop (handle_value (_handle w)))
  /\ _handle (snd (teardowns lib (replicate n Stop) w)) = _handle w
  /\ stdout (snd (teardowns lib (replicate n Stop) w)) = stdout w.
Proof.
  revert w. induction n as [ | n IH]; intros w H.
  - simpl. now rewrite app_nil_r.
  - cbn [replicate]. rewrite teardowns_cons. cbn [teardown].
    rewrite (stop_guarded w H). cbn [snd].
    destruct (IH (Build_World (snd (relay_leaf_stop lib (handle_value (_handle w)) (dll w)))
                    (_handle w) (calls w ++ [Call_stop (handle_value (_handle w))])
                    (stdout w)) H) as (Hc & Hh & Ho).
    cbn [calls _handle stdout] in *.
    rewrite Hc, Hh, Ho, <- app_assoc. auto.
Qed.

End TeardownFacts.

Section SpecFacts.
Variable P : SpecNative.NativeParams.
Local Abbreviation lib := (SpecNative.SpecLib P).

Lemma lookup_put (h : Z) (s : SpecNative.Session) (ns : SpecNative.SpecState) :
  SpecNative.sessions (SpecNative.put h s ns) !! h = Some s.
Proof. unfold SpecNative.put. cbn [SpecNative.sessions]. apply lookup_insert_eq. Qed.

Lemma lookup_put_ne (h h' : Z) (s : SpecNative.Session) (ns : SpecNative.SpecState) :
  h <> h' ->
  SpecNative.sessions (SpecNative.put h s ns) !! h' = SpecNative.sessions ns !! h'.
Proof.
  intros H. unfold SpecNative.put. cbn [SpecNative.sessions].
  now apply lookup_insert_ne.
Qed.

(** A second relay_leaf_stop finds the session stopped and leaves the
    library as the first one left it. *)
Lemma spec_stop_idempotent (h : Z) (ns : SpecNative.SpecState) :
  snd (SpecNative.spec_stop h (snd (SpecNative.spec_stop h ns)))
  = snd (SpecNative.spec_stop h ns).
Proof.
  unfold SpecNative.spec_stop, SpecNative.on_session.
  destruct (SpecNative.sessions ns !! h) as [s | ] eqn:Hs; cbn [snd].
  - destruct (SpecNative.lifecycle s) eqn:Hl; cbn [snd].
    + now rewrite Hs, Hl.
    + rewrite lookup_put. reflexivity.
    + now rewrite Hs, Hl.
  - now rewrite Hs.
Qed.

Lemma stops_state (n : nat) (w : World SpecNative.SpecState) :
  session_state (snd (teardowns lib (replicate (S n) Stop) w))
  = session_state (snd (stop lib w)).
Proof.
  destruct (handle_truthy (_handle w)) eqn:H.
  - cbn [replicate]. rewrite teardowns_cons. cbn [teardown].
    rewrite (stop_guarded lib w H). cbn [snd].
    set (h := handle_value (_handle w)).
    assert (Hgen : forall m w',
              _handle w' = _handle w ->
              dll w' = snd (SpecNative.spec_stop h (dll w)) ->
              session_state (snd (teardowns lib (replicate m Stop) w'))
              = (_handle w, snd (SpecNative.spec_stop h (dll w)))).
    { induction m as [ | m IH]; intros w' Hh Hd.
      - unfold session_state. simpl. now rewrite Hh, Hd.
      - cbn [replicate]. rewrite teardowns_cons. cbn [teardown].
        assert (Ht : handle_truthy (_handle w') = true) by now rewrite Hh.
        rewrite (stop_guarded lib w' Ht). cbn [snd]. apply IH.
        + exact Hh.
        + cbn [dll]. rewrite Hh, Hd. fold h. apply spec_stop_idempotent. }
    apply Hgen; reflexivity.
  - rewrite (teardowns_unguarded lib _ w H), (stop_unguarded lib w H). reflexivity.
Qed.

End SpecFacts.

(** C2: [stop] and [destroy] never raise, in any order and any number of
    times, even when the native call faults.  Once [destroy] has run,
    every later [stop] or [destroy] returns at the guard: the world,
    record of native calls included, stays as the first [destroy] left it,
    and a handle that was live is [None].  Repeating [stop] on a live handle
    forwards each call to relay_leaf_stop; against the library of the
    specification the repetitions leave the relay object and the library
    as the first [stop] left them, and print nothing. *)
Theorem teardown_never_raises_and_is_idempotent :
  (forall NState (lib : NativeLib NState) (ts : list Teardown) (w : World NState),
      fst (teardowns lib ts w) = Return tt)
  /\ (forall NState (lib : NativeLib NState) (ts : list Teardown) (w : World NState),
         teardowns lib (Destroy :: ts) w = (Return tt, snd (destroy lib w)))
  /\ (forall NState (lib : NativeLib NState) (w : World NState),
         handle_truthy (_handle w) = true ->
         _handle (snd (destroy lib w)) = HandleNone)
  /\ (forall NState (lib : NativeLib NState) (n : nat) (w : World NState),
         handle_truthy (_handle w) = true ->
         calls (snd (teardowns lib (replicate n Stop) w))
         = calls w ++ replicate n (Call_stop (handle_value (_handle w))))
  /\ (forall (P : SpecNative.NativeParams) (n : nat) (w : World SpecNative.SpecState),
         session_state (snd (teardowns (SpecNative.SpecLib P) (replicate (S n) Stop) w))
         = session_state (snd (stop (SpecNative.SpecLib P) w))
         /\ stdout (snd (teardowns (SpecNative.SpecLib P) (replicate (S n) Stop) w))
            = stdout (snd (stop (SpecNative.SpecLib P) w))).
Proof.
  split; [ | split; [ | split; [ | split ] ] ].
  - intros. apply teardowns_return.
  - intros NState lib ts w. rewrite teardowns_cons. cbn [teardown].
    apply teardowns_unguarded, destroy_clears_handle.
  - intros NState lib w H. now rewrite destroy_guarded.
  - intros NState lib n w H. now apply stops_calls.
  - intros P n w. split; [ apply stops_state | ].
    destruct (handle_truthy (_handle w)) eqn:H.
    + destruct (stops_calls (SpecNative.SpecLib P) (S n) w H) as (_ & _ & Ho).
      rewrite Ho, stop_guarded by exact H. reflexivity.
    + rewrite teardowns_unguarded, stop_unguarded by exact H. reflexivity.
Qed.

(** ** Proxies *)

Section ProxyFacts.
Context {NState : Type} (lib : NativeLib NState).

(** [add_proxy] on a live handle, once the native call has returned. *)
Lemma add_proxy_guarded (w : World NState) (url : string) (rc : Z) (ns : NState) :
  handle_truthy (_handle w) = true ->
  relay_leaf_add_proxy lib (handle_value (_handle w)) url (dll w)
    = (Returned rc, ns) ->
  fst (add_proxy lib url w) = Return (Z.eqb rc 0)
  /\ session_state (snd (add_proxy lib url w)) = (_handle w, ns)
  /\ stdout (snd (add_proxy lib url w))
     = stdout w ++
       (if Z.eqb rc 0 then []
        else ["Invalid proxy: " +:+ url +:+ " | Code=" +:+ pretty rc +:+ " | "
              +:+ error_text_of lib rc]).
Proof.
  intros Hh Hn.
  set (w1 := Build_World ns (_handle w)
               (calls w ++ [Call_add_proxy (handle_value (_handle w)) url])
               (stdout w)).
  set (line := "Invalid proxy: " +:+ url +:+ " | Code=" +:+ pretty rc +:+ " | "
               +:+ error_text_of lib rc).
  assert (Heq : add_proxy lib url w =
                if Z.eqb rc 0 then (Return true, w1)
                else (Return false, snd (print line (snd (get_error_text lib rc w1))))).
  { unfold add_proxy, bind, get_handle, ffi. rewrite Hh. cbn [negb].
    rewrite Hn. fold w1. destruct (Z.eqb rc 0); cbn [negb]; [ reflexivity | ].
    destruct (get_error_text_returns lib rc w1) as (Hr & _).
    destruct (get_error_text lib rc w1) as [r w2]. cbn [fst snd] in *. subst r.
    reflexivity. }
  rewrite Heq. destruct (Z.eqb rc 0).
  - cbn. now rewrite app_nil_r.
  - destruct (get_error_text_returns lib rc w1) as (_ & Hs & Ho & _).
    unfold session_state in *. injection Hs as Hs1 Hs2.
    unfold print. cbn [fst snd _handle dll stdout].
    now rewrite Hs1, Hs2, Ho.
Qed.

(** [start] on a live handle, once the native call has returned: the
    result is that of [_check] on the code. *)
Lemma start_guarded (w : World NState) (rc : Z) (ns : NState) :
  handle_truthy (_handle w) = true ->
  relay_leaf_start lib (handle_value (_handle w)) (dll w) = (Returned rc, ns) ->
  fst (start lib w) = fst (_check lib rc "relay_leaf_start" w)
  /\ session_state (snd (start lib w)) = (_handle w, ns).
Proof.
  intros Hh Hn.
  set (w1 := Build_World ns (_handle w)
               (calls w ++ [Call_start (handle_value (_handle w))]) (stdout w)).
  assert (Heq : start lib w = _check lib rc "relay_leaf_start" w1).
  { unfold start, bind, get_handle, ffi. rewrite Hh. cbn [negb].
    now rewrite Hn. }
  rewrite Heq.
  destruct (check_quiet lib rc "relay_leaf_start" w1) as (Hs & _).
  split; [ | exact Hs ].
  destruct (Z.eq_dec rc 0) as [-> | Hrc].
  - reflexivity.
  - now rewrite !check_nonzero.
Qed.

(** The outcome of [start] depends on the relay object and the library
    only, not on what was printed or called before. *)
Lemma start_session_state (w1 w2 : World NState) :
  session_state w1 = session_state w2 ->
  fst (start lib w1) = fst (start lib w2)
  /\ session_state (snd (start lib w1)) = session_state (snd (start lib w2)).
Proof.
  intros H. unfold session_state in H. injection H as Hh Hd.
  destruct (handle_truthy (_handle w1)) eqn:Ht.
  - assert (Ht2 : handle_truthy (_handle w2) = true) by now rewrite <- Hh.
    destruct (relay_leaf_start lib (handle_value (_handle w1)) (dll w1))
      as [[rc | m] ns] eqn:Hn.
    + destruct (start_guarded w1 rc ns Ht Hn) as (Hf1 & Hs1).
      rewrite Hh, Hd in Hn.
      destruct (start_guarded w2 rc ns Ht2 Hn) as (Hf2 & Hs2).
      rewrite Hf1, Hf2, Hs1, Hs2, Hh. split; [ | reflexivity ].
      destruct (Z.eq_dec rc 0) as [-> | Hrc]; [ reflexivity | ].
      now rewrite !check_nonzero.
    + unfold start, bind, get_handle, ffi. rewrite Ht, Ht2. cbn [negb].
      rewrite <- Hh, <- Hd, Hn. split; reflexivity.
  - assert (Ht2 : handle_truthy (_handle w2) = false) by now rewrite <- Hh.
    rewrite !start_unguarded by assumption. unfold session_state. cbn [fst snd].
    now rewrite Hh, Hd.
Qed.

End ProxyFacts.

Section SpecProxyFacts.
Variable P : SpecNative.NativeParams.
Local Abbreviation lib := (SpecNative.SpecLib P).

(** A configuration call that reports a non-zero code has changed nothing
    in the library. *)
Lemma on_session_refused (h : Z) (change : SpecNative.Session -> Z + SpecNative.Session)
  (ns ns' : SpecNative.SpecState) (rc : Z) :
  SpecNative.on_session h change ns = (Returned rc, ns') -> rc <> 0 -> ns' = ns.
Proof.
  unfold SpecNative.on_session.
  destruct (SpecNative.sessions ns !! h) as [s | ]; [ destruct (change s) | ];
    intros H Hrc; injection H as <- <-; [ reflexivity | | reflexivity ].
  now contradict Hrc.
Qed.

(** A configuration call of the library always returns a code. *)
Lemma on_session_returns (h : Z) (change : SpecNative.Session -> Z + SpecNative.Session)
  (ns : SpecNative.SpecState) :
  exists rc, fst (SpecNative.on_session h change ns) = Returned rc.
Proof.
  unfold SpecNative.on_session.
  destruct (SpecNative.sessions ns !! h) as [s | ]; [ destruct (change s) | ];
    eauto.
Qed.

Lemma spec_add_proxy_invalid (h : Z) (url : string) (ns : SpecNative.SpecState)
  (s : SpecNative.Session) :
  SpecNative.sessions ns !! h = Some s ->
  SpecNative.valid_proxy P url = false ->
  SpecNative.spec_add_proxy P h url ns = (Returned RelayLeafError.INVALID_PROXY, ns).
Proof.
  intros Hs Hv. unfold SpecNative.spec_add_proxy, SpecNative.on_session.
  now rewrite Hs, Hv.
Qed.

(** After relay_leaf_add_proxy a session that was Created is still there
    and still Created. *)
Lemma spec_add_proxy_keeps_created (h : Z) (url : string)
  (ns : SpecNative.SpecState) (s : SpecNative.Session) :
  SpecNative.sessions ns !! h = Some s ->
  SpecNative.lifecycle s = SpecNative.Created ->
  exists s',
    SpecNative.sessions (snd (SpecNative.spec_add_proxy P h url ns)) !! h = Some s'
    /\ SpecNative.lifecycle s' = SpecNative.Created
    /\ (exists rc, fst (SpecNative.spec_add_proxy P h url ns) = Returned rc).
Proof.
  intros Hs Hl. unfold SpecNative.spec_add_proxy, SpecNative.on_session.
  rewrite Hs, Hl.
  destruct (SpecNative.valid_proxy P url); cbn [negb fst snd].
  - rewrite lookup_put. eexists. split; [ reflexivity | ]. split; [ reflexivity | eauto ].
  - exists s. eauto.
Qed.

Lemma start_created (w : World SpecNative.SpecState) (s : SpecNative.Session) :
  handle_truthy (_handle w) = true ->
  SpecNative.sessions (dll w) !! handle_value (_handle w) = Some s ->
  SpecNative.lifecycle s = SpecNative.Created ->
  fst (start lib w) = Return tt.
Proof.
  intros Hh Hs Hl.
  destruct (start_guarded lib w RelayLeafError.OK
              (SpecNative.put (handle_value (_handle w))
                 (SpecNative.with_lifecycle SpecNative.Started s) (dll w)) Hh)
    as (Hf & _).
  - cbn. unfold SpecNative.spec_start, SpecNative.on_session. now rewrite Hs, Hl.
  - exact Hf.
Qed.

End SpecProxyFacts.

(** C3: on a created session, [add_proxy] returns [True] when the native
    call reports code 0 and [False] when it reports any other code; it
    does not raise, and adds nothing of its own to what the native call
    did to the library.  Against the library of the specification an
    invalid URL is reported as InvalidProxy, a refused proxy leaves the
    relay object and the library (with the proxies accepted so far) as they
    were, [start] afterwards does what it would have done before, and a
    session that was Created still starts. *)
Theorem add_proxy_reports_and_isolates :
  (forall NState (lib : NativeLib NState) (w : World NState) (url : string)
          (rc : Z) (ns : NState),
      handle_truthy (_handle w) = true ->
      relay_leaf_add_proxy lib (handle_value (_handle w)) url (dll w)
        = (Returned rc, ns) ->
      (rc = 0 -> fst (add_proxy lib url w) = Return true)
      /\ (rc <> 0 -> fst (add_proxy lib url w) = Return false)
      /\ session_state (snd (add_proxy lib url w)) = (_handle w, ns))
  /\ (forall (P : SpecNative.NativeParams) (w : World SpecNative.SpecState)
             (url : string) (s : SpecNative.Session),
         handle_truthy (_handle w) = true ->
         SpecNative.sessions (dll w) !! handle_value (_handle w) = Some s ->
         (SpecNative.valid_proxy P url = false ->
          fst (SpecNative.spec_add_proxy P (handle_value (_handle w)) url (dll w))
          = Returned RelayLeafError.INVALID_PROXY)
         /\ (fst (add_proxy (SpecNative.SpecLib P) url w) = Return false ->
             session_state (snd (add_proxy (SpecNative.SpecLib P) url w))
             = session_state w
             /\ fst (start (SpecNative.SpecLib P)
                       (snd (add_proxy (SpecNative.SpecLib P) url w)))
                = fst (start (SpecNative.SpecLib P) w)
             /\ session_state
                  (snd (start (SpecNative.SpecLib P)
                          (snd (add_proxy (SpecNative.SpecLib P) url w))))
                = session_state (snd (start (SpecNative.SpecLib P) w)))
         /\ (SpecNative.lifecycle s = SpecNative.Created ->
             fst (start (SpecNative.SpecLib P)
                    (snd (add_proxy (SpecNative.SpecLib P) url w)))
             = Return tt)).
Proof.
  split.
  - intros NState lib w url rc ns Hh Hn.
    destruct (add_proxy_guarded lib w url rc ns Hh Hn) as (Hf & Hs & _).
    rewrite Hf. repeat split; [ now intros -> | | exact Hs ].
    intros Hrc. now destruct (Z.eqb_spec rc 0).
  - intros P w url s Hh Hs.
    set (lib := SpecNative.SpecLib P).
    set (h := handle_value (_handle w)) in *.
    split; [ | split ].
    + intros Hv. now rewrite (spec_add_proxy_invalid P h url (dll w) s Hs Hv).
    + intros Hf.
      destruct (SpecNative.spec_add_proxy P h url (dll w)) as [[rc | m] ns] eqn:Hn.
      * destruct (add_proxy_guarded lib w url rc ns Hh Hn) as (Hf' & Hst & _).
        rewrite Hf in Hf'. injection Hf' as Hrc.
        assert (Hnz : rc <> 0) by (intros ->; discriminate).
        assert (ns = dll w) as ->
            by exact (on_session_refused h _ (dll w) ns rc Hn Hnz).
        assert (Hsame : session_state (snd (add_proxy lib url w)) = session_state w)
          by exact Hst.
        split; [ exact Hsame | ].
        now apply start_session_state.
      * unfold SpecNative.spec_add_proxy in Hn.
        match type of Hn with
        | SpecNative.on_session _ ?change _ = _ =>
            destruct (on_session_returns h change (dll w)) as [rc Hrc]
        end.
        rewrite Hn in Hrc. discriminate.
    + intros Hl.
      destruct (spec_add_proxy_keeps_created P h url (dll w) s Hs Hl)
        as (s' & Hs' & Hl' & rc & Hrc).
      destruct (SpecNative.spec_add_proxy P h url (dll w)) as [o ns] eqn:Hn.
      cbn [fst snd] in *. subst o.
      destruct (add_proxy_guarded lib w url rc ns Hh Hn) as (_ & Hst & _).
      unfold session_state in Hst. injection Hst as Hh2 Hd2.
      apply (start_created P _ s').
      * now rewrite Hh2.
      * rewrite Hh2, Hd2. exact Hs'.
      * exact Hl'.
Qed.

Lemma add_proxy_reports_and_isolates_witness :
  fst (add_proxy sample_lib "not-a-url" sample_created) = Return false
  /\ fst (start sample_lib (snd (add_proxy sample_lib "not-a-url" sample_created)))
     = Return tt.
Proof.
  destruct add_proxy_reports_and_isolates as [Hcode Hspec].
  destruct (Hcode _ sample_lib sample_created "not-a-url"
              RelayLeafError.INVALID_PROXY (dll sample_created))
    as (_ & Hfalse & _); [ reflexivity | reflexivity | ].
  destruct (Hspec sample_params sample_created "not-a-url"
              {| SpecNative.device_id := "device-1";
                 SpecNative.cfg_verbose := false;
                 SpecNative.cfg_discovery_url := None;
                 SpecNative.cfg_partner_id := None;
                 SpecNative.cfg_proxies := [];
                 SpecNative.lifecycle := SpecNative.Created;
                 SpecNative.counters := RelayLeafStats_new |})
    as (_ & _ & Hstart); [ reflexivity | reflexivity | ].
  split; [ apply Hfalse; discriminate | apply Hstart; reflexivity ].
Defined.

(** ** Polling *)

Section StatsFacts.
Context {NState : Type} (lib : NativeLib NState).

(** [get_stats] on a live handle, once the native call has returned. *)
Lemma get_stats_guarded (w : World NState) (rc : Z) (st : RelayLeafStats)
  (ns : NState) :
  handle_truthy (_handle w) = true ->
  relay_leaf_get_stats lib (handle_value (_handle w)) (dll w)
    = (Returned (rc, st), ns) ->
  fst (get_stats lib w) = Return (if Z.eqb rc 0 then Some (stats_dict st) else None)
  /\ session_state (snd (get_stats lib w)) = (_handle w, ns)
  /\ stdout (snd (get_stats lib w))
     = stdout w ++
       (if Z.eqb rc 0 then []
        else ["relay_leaf_get_stats failed: " +:+ pretty rc +:+ " - "
              +:+ error_text_of lib rc])
  /\ filter is_teardown (calls (snd (get_stats lib w)))
     = filter is_teardown (calls w).
Proof.
  intros Hh Hn.
  set (w1 := Build_World ns (_handle w)
               (calls w ++ [Call_get_stats (handle_value (_handle w))])
               (stdout w)).
  set (line := "relay_leaf_get_stats failed: " +:+ pretty rc +:+ " - "
               +:+ error_text_of lib rc).
  assert (Heq : get_stats lib w =
                if Z.eqb rc 0
                then (Return (Some (stats_dict st)),
                      snd (ffi_const Call_free_stats tt w1))
                else (Return None, snd (print line (snd (get_error_text lib rc w1))))).
  { unfold get_stats, bind, get_handle, ffi. rewrite Hh. cbn [negb].
    rewrite Hn. fold w1. destruct (Z.eqb rc 0); cbn [negb]; [ reflexivity | ].
    destruct (get_error_text_returns lib rc w1) as (Hr & _).
    destruct (get_error_text lib rc w1) as [r w2]. cbn [fst snd] in *. subst r.
    reflexivity. }
  rewrite Heq. destruct (Z.eqb rc 0).
  - unfold ffi_const, session_state, w1. cbn [fst snd _handle dll stdout calls].
    rewrite app_nil_r, !filter_app. cbn. now rewrite !app_nil_r.
  - destruct (get_error_text_returns lib rc w1) as (_ & Hs & Ho & Hc).
    unfold session_state in *. injection Hs as Hs1 Hs2.
    unfold print. cbn [fst snd _handle dll stdout calls].
    rewrite Hs1, Hs2, Ho, Hc. unfold w1. cbn [_handle dll stdout calls].
    rewrite filter_app. cbn. now rewrite app_nil_r.
Qed.

End StatsFacts.

(** C4: on a session that was created and not started, the library of the
    specification answers relay_leaf_get_stats with NotStarted, and
    [get_stats] fails with it: it returns [None] instead of a dictionary,
    reports code 6 with its message on the console, and changes neither the
    relay object nor the library. *)
Theorem get_stats_before_start
  (P : SpecNative.NativeParams) (w : World SpecNative.SpecState)
  (s : SpecNative.Session) :
  handle_truthy (_handle w) = true ->
  SpecNative.sessions (dll w) !! handle_value (_handle w) = Some s ->
  SpecNative.lifecycle s = SpecNative.Created ->
  fst (SpecNative.spec_get_stats (handle_value (_handle w)) (dll w))
    = Returned (RelayLeafError.NOT_STARTED, RelayLeafStats_new)
  /\ fst (get_stats (SpecNative.SpecLib P) w) = Return None
  /\ stdout (snd (get_stats (SpecNative.SpecLib P) w))
     = stdout w ++ ["relay_leaf_get_stats failed: 6 - "
                    +:+ error_text_of (SpecNative.SpecLib P) 6]
  /\ session_state (snd (get_stats (SpecNative.SpecLib P) w)) = session_state w.
Proof.
  intros Hh Hs Hl.
  assert (Hn : SpecNative.spec_get_stats (handle_value (_handle w)) (dll w)
               = (Returned (RelayLeafError.NOT_STARTED, RelayLeafStats_new), dll w)).
  { unfold SpecNative.spec_get_stats. now rewrite Hs, Hl. }
  split; [ now rewrite Hn | ].
  destruct (get_stats_guarded (SpecNative.SpecLib P) w RelayLeafError.NOT_STARTED
              RelayLeafStats_new (dll w) Hh Hn) as (Hf & Hst & Ho & _).
  auto.
Qed.

Lemma get_stats_before_start_witness :
  fst (get_stats sample_lib sample_created) = Return None
  /\ stdout (snd (get_stats sample_lib sample_created))
     = ["relay_leaf_get_stats failed: 6 - not started"].
Proof.
  destruct (get_stats_before_start sample_params sample_created
              {| SpecNative.device_id := "device-1";
                 SpecNative.cfg_verbose := false;
                 SpecNative.cfg_discovery_url := None;
                 SpecNative.cfg_partner_id := None;
                 SpecNative.cfg_proxies := [];
                 SpecNative.lifecycle := SpecNative.Created;
                 SpecNative.counters := RelayLeafStats_new |})
    as (_ & Hf & Ho & _); [ reflexivity | reflexivity | reflexivity | ].
  split; [ exact Hf | exact Ho ].
Defined.

(** ** The console runner *)

Section KeepsSession.
Context {NState : Type} (lib : NativeLib NState).

Lemma keeps_ret {A} (a : A) : keeps_session (ret (NState:=NState) a).
Proof. intros w. split; reflexivity. Qed.

Lemma keeps_raise {A} (e : PyExc) : keeps_session (raise (NState:=NState) (A:=A) e).
Proof. intros w. split; reflexivity. Qed.

Lemma keeps_print (line : string) : keeps_session (print (NState:=NState) line).
Proof. intros w. split; reflexivity. Qed.

Lemma keeps_get_handle : keeps_session (get_handle (NState:=NState)).
Proof. intros w. split; reflexivity. Qed.

Lemma keeps_ffi {A} (ev : NativeCall) (f : NState -> Outcome A * NState) :
  is_teardown ev = false -> keeps_session (ffi ev f).
Proof.
  intros Hev w. unfold ffi. destruct (f (dll w)) as [[a | m] ns]; cbn;
    rewrite filter_app; cbn; rewrite Hev; now rewrite app_nil_r.
Qed.

Lemma keeps_ffi_const {A} (ev : NativeCall) (a : A) :
  is_teardown ev = false -> keeps_session (ffi_const (NState:=NState) ev a).
Proof.
  intros Hev w. unfold ffi_const. cbn.
  rewrite filter_app; cbn; rewrite Hev; now rewrite app_nil_r.
Qed.

Lemma keeps_bind {A B} (c : Py NState A) (k : A -> Py NState B) :
  keeps_session c -> (forall a, keeps_session (k a)) -> keeps_session (bind c k).
Proof.
  intros Hc Hk w. unfold bind. specialize (Hc w).
  destruct (c w) as [[a | e] w1]; cbn [snd] in *; [ | exact Hc ].
  destruct (Hk a w1) as (H1 & H2). destruct Hc as (H3 & H4).
  split; congruence.
Qed.

End KeepsSession.

(** Walks through a method body built from the monad's operations. *)
Ltac keeps :=
  repeat
    lazymatch goal with
    | |- keeps_session (ret _) => apply keeps_ret
    | |- keeps_session (raise _) => apply keeps_raise
    | |- keeps_session (print _) => apply keeps_print
    | |- keeps_session get_handle => apply keeps_get_handle
    | |- keeps_session (ffi _ _) => apply keeps_ffi; reflexivity
    | |- keeps_session (ffi_const _ _) => apply keeps_ffi_const; reflexivity
    | |- keeps_session (bind _ _) => apply keeps_bind; [ | intros ? ]
    | |- keeps_session (if ?b then _ else _) => destruct b
    | |- keeps_session (match ?x with _ => _ end) => destruct x
    | |- _ => fail
    end.

Section MainFacts.
Context {NState : Type} (lib : NativeLib NState).

Lemma keeps_get_error_text (code : Z) : keeps_session (get_error_text lib code).
Proof. unfold get_error_text, _ptr_to_string_and_free. keeps. Qed.

Lemma keeps_check (code : Z) (api_name : string) :
  keeps_session (_check lib code api_name).
Proof. unfold _check. keeps. apply keeps_get_error_text. Qed.

Lemma keeps_get_version : keeps_session (get_version lib).
Proof. unfold get_version, _ptr_to_string_and_free. keeps. Qed.

Lemma keeps_get_device_id : keeps_session (get_device_id lib).
Proof. unfold get_device_id, _ptr_to_string_and_free. keeps. Qed.

Lemma keeps_set_discovery_url (url : string) :
  keeps_session (set_discovery_url lib url).
Proof. unfold set_discovery_url. keeps. apply keeps_check. Qed.

Lemma keeps_set_partner_id (id : string) : keeps_session (set_partner_id lib id).
Proof. unfold set_partner_id. keeps. apply keeps_check. Qed.

Lemma keeps_add_proxy (url : string) : keeps_session (add_proxy lib url).
Proof. unfold add_proxy. keeps. apply keeps_get_error_text. Qed.

Lemma keeps_start : keeps_session (start lib).
Proof. unfold start. keeps. apply keeps_check. Qed.

Lemma keeps_get_stats : keeps_session (get_stats lib).
Proof. unfold get_stats. keeps. apply keeps_get_error_text. Qed.

Lemma keeps_getitem (d : PyDict) (k : string) :
  keeps_session (getitem (NState:=NState) d k).
Proof. unfold getitem. keeps. Qed.

Lemma keeps_print_stats (d : PyDict) : keeps_session (print_stats (NState:=NState) d).
Proof. unfold print_stats. keeps; apply keeps_getitem. Qed.

Lemma keeps_poll_once : keeps_session (poll_once lib).
Proof.
  unfold poll_once, sleep. keeps;
    first [ apply keeps_get_stats | apply keeps_print_stats ].
Qed.

Lemma keeps_add_proxies (ps : list string) : keeps_session (add_proxies lib ps).
Proof.
  induction ps as [ | p ps IH]; cbn [add_proxies]; keeps;
    first [ exact IH | apply keeps_add_proxy ].
Qed.

End MainFacts.

Section MainRun.
Context {NState : Type} (lib : NativeLib NState).

(** Once a signal has been handled, [running] is false. *)
Lemma deliver_some (arrived : list Signal) (running : bool) :
  arrived <> [] -> deliver arrived running = false.
Proof.
  unfold deliver. destruct arrived as [ | s rest]; [ congruence | ].
  intros _. cbn [fold_left]. unfold signal_handler at 2.
  induction rest as [ | s' rest IH]; [ reflexivity | exact IH ].
Qed.

(** The loop ends if a signal arrives before the fuel runs out. *)
Lemma poll_loop_ends (sigs : Signals) (n : nat) :
  sigs n <> [] ->
  forall (fuel i : nat) (running : bool) (w : World NState),
    (i <= n)%nat -> (n <= i + fuel)%nat ->
    exists r w', poll_loop lib sigs fuel i running w = Some (r, w').
Proof.
  intros Hn. induction fuel as [ | fuel IH]; intros i running w Hi Hf.
  - assert (i = n) as -> by lia. cbn. rewrite (deliver_some _ _ Hn). eauto.
  - cbn [poll_loop]. destruct (deliver (sigs i) running) eqn:Hd; [ | eauto ].
    assert (i <> n) by (intros ->; rewrite (deliver_some _ _ Hn) in Hd; discriminate).
    destruct (poll_once lib w) as [[u | e] w1]; [ | eauto ].
    apply IH; lia.
Qed.

(** The loop never touches the handle and makes no teardown call. *)
Lemma poll_loop_keeps (sigs : Signals) (fuel : nat) :
  forall (i : nat) (running : bool) (w : World NState) r w',
    poll_loop lib sigs fuel i running w = Some (r, w') ->
    _handle w' = _handle w
    /\ filter is_teardown (calls w') = filter is_teardown (calls w).
Proof.
  induction fuel as [ | fuel IH]; intros i running w r w'; cbn [poll_loop];
    destruct (deliver (sigs i) running); try discriminate;
    try (intros H; injection H as <- <-; now split).
  destruct (keeps_poll_once lib w) as (Hh & Hc).
  destruct (poll_once lib w) as [[u | e] w1]; cbn [snd] in *.
  - intros H. destruct (IH _ _ _ _ _ H) as (Hh' & Hc'). split; congruence.
  - intros H. injection H as <- <-. now split.
Qed.

(** [create] makes no teardown call; it sets the handle only when the
    native call succeeded. *)
Lemma create_calls (v : bool) (w : World NState) :
  filter is_teardown (calls (snd (create lib v w))) = filter is_teardown (calls w).
Proof.
  unfold create, bind at 1.
  destruct (keeps_ffi (Call_create v) (relay_leaf_create lib v) eq_refl w) as (_ & Hc).
  destruct (ffi (Call_create v) (relay_leaf_create lib v) w) as [[[rc h] | e] w1];
    cbn [snd] in *; [ | exact Hc ].
  unfold bind.
  destruct (keeps_check lib rc "relay_leaf_create" w1) as (_ & Hc1).
  destruct (_check lib rc "relay_leaf_create" w1) as [[u | e] w2]; cbn [snd] in *;
    unfold set_handle; cbn; congruence.
Qed.

(** A continuation that keeps the session leaves the handle and the
    teardown calls as its first step left them. *)
Lemma bind_keeps_after {A B} (c : Py NState A) (k : A -> Py NState B)
  (w : World NState) :
  (forall a, keeps_session (k a)) ->
  _handle (snd (bind c k w)) = _handle (snd (c w))
  /\ filter is_teardown (calls (snd (bind c k w)))
     = filter is_teardown (calls (snd (c w))).
Proof.
  intros Hk. unfold bind. destruct (c w) as [[a | e] w1]; cbn [snd].
  - apply Hk.
  - now split.
Qed.

(** What remains of [main_setup] after [create]. *)
Lemma main_setup_keeps (options : RelayOptions) (w : World NState) :
  _handle (snd (main_setup lib options w))
  = _handle (snd (create lib (verbose options) w))
  /\ filter is_teardown (calls (snd (main_setup lib options w)))
     = filter is_teardown (calls w).
Proof.
  unfold main_setup. rewrite <- (create_calls (verbose options) w).
  apply bind_keeps_after. intros u.
  keeps;
    first [ apply keeps_get_device_id | apply keeps_set_discovery_url
          | apply keeps_set_partner_id | apply keeps_add_proxies
          | apply keeps_start | apply keeps_get_version ].
Qed.

(** A sequence whose first step returns goes on with the rest. *)
Lemma bind_return_eq {A B} (c : Py NState A) (k : A -> Py NState B)
  (w : World NState) (a : A) :
  fst (c w) = Return a -> bind c k w = k a (snd (c w)).
Proof.
  unfold bind. destruct (c w) as [r w1]. cbn [fst snd]. now intros ->.
Qed.

(** Inversion of a sequence that returned. *)
Lemma bind_returned {A B} (c : Py NState A) (k : A -> Py NState B)
  (w : World NState) (b : B) :
  fst (bind c k w) = Return b ->
  exists a w1, c w = (Return a, w1) /\ fst (k a w1) = Return b.
Proof.
  unfold bind. destruct (c w) as [[a | e] w1]; [ eauto | discriminate ].
Qed.

(** The loop is reached only with a live handle: [start] has returned. *)
Lemma main_setup_returned (options : RelayOptions) (w : World NState) :
  fst (main_setup lib options w) = Return tt ->
  handle_truthy (_handle (snd (create lib (verbose options) w))) = true.
Proof.
  unfold main_setup. intros H.
  apply bind_returned in H as (u & w1 & Hcreate & H). rewrite Hcreate. cbn [snd].
  apply bind_returned in H as (dev & w2 & H2 & H).
  apply bind_returned in H as (u3 & w3 & H3 & H).
  apply bind_returned in H as (u4 & w4 & H4 & H).
  apply bind_returned in H as (u5 & w5 & H5 & H).
  apply bind_returned in H as (u6 & w6 & H6 & H).
  apply bind_returned in H as (u7 & w7 & H7 & _).
  assert (E2 : _handle w2 = _handle w1)
    by (destruct (keeps_get_device_id lib w1) as (E & _); now rewrite H2 in E).
  assert (E3 : _handle w3 = _handle w2)
    by (destruct (keeps_print (NState:=NState) ("Device ID: " +:+ dev) w2) as (E & _);
        now rewrite H3 in E).
  assert (E4 : _handle w4 = _handle w3).
  { match type of H4 with
    | ?c w3 = _ => assert (Hk : keeps_session c)
                     by (keeps; apply keeps_set_discovery_url)
    end.
    destruct (Hk w3) as (E & _). now rewrite H4 in E. }
  assert (E5 : _handle w5 = _handle w4).
  { match type of H5 with
    | ?c w4 = _ => assert (Hk : keeps_session c)
                     by (keeps; apply keeps_set_partner_id)
    end.
    destruct (Hk w4) as (E & _). now rewrite H5 in E. }
  assert (E6 : _handle w6 = _handle w5)
    by (destruct (keeps_add_proxies lib (proxies options) w5) as (E & _);
        now rewrite H6 in E).
  destruct (handle_truthy (_handle w1)) eqn:Ht; [ reflexivity | ].
  rewrite start_unguarded in H7 by (rewrite E6, E5, E4, E3, E2; exact Ht).
  discriminate.
Qed.

(** The [finally] block: two lines of text around [stop] and [destroy],
    each of which reaches the library when the handle is live. *)
Lemma main_finally_calls (w : World NState) :
  handle_truthy (_handle (snd (main_finally lib w))) = false
  /\ calls (snd (main_finally lib w))
     = calls w ++
       (if handle_truthy (_handle w)
        then [Call_stop (handle_value (_handle w));
              Call_destroy (handle_value (_handle w))]
        else [])
  /\ stdout (snd (main_finally lib w))
     = stdout w ++ ["Shutting down relay..."; "Client stopped + destroyed."].
Proof.
  unfold main_finally.
  rewrite (bind_return_eq (print "Shutting down relay...") _ w tt) by reflexivity.
  set (w1 := snd (print "Shutting down relay..." w)).
  rewrite (bind_return_eq (stop lib) _ w1 tt) by apply stop_returns.
  rewrite (bind_return_eq (destroy lib) _ _ tt) by apply destroy_returns.
  assert (Hw1 : _handle w1 = _handle w) by reflexivity.
  destruct (handle_truthy (_handle w)) eqn:Ht.
  - rewrite (stop_guarded lib w1) by (now rewrite Hw1). cbn [snd].
    rewrite destroy_guarded by (cbn [_handle]; now rewrite Hw1). cbn [snd].
    unfold w1, print. cbn [fst snd _handle dll calls stdout handle_truthy].
    rewrite <- !app_assoc. auto.
  - rewrite (stop_unguarded lib w1) by (now rewrite Hw1). cbn [snd].
    rewrite (destroy_unguarded lib w1) by (now rewrite Hw1). cbn [snd].
    unfold w1, print. cbn [fst snd _handle dll calls stdout].
    rewrite <- !app_assoc, app_nil_r. auto.
Qed.

End MainRun.

Section MainTheorem.
Context {NState : Type} (lib : NativeLib NState).

(** [main] ends once a signal has been handled. *)
Lemma main_session_ends (options : RelayOptions) (sigs : Signals)
  (n fuel : nat) (w0 : World NState) :
  sigs n <> [] -> (n <= fuel)%nat ->
  exists w, main_session lib options sigs fuel w0 = Some w.
Proof.
  intros Hn Hf. unfold main_session.
  destruct (main_setup lib options w0) as [[u | e] w1]; [ | eauto ].
  destruct (poll_loop_ends lib sigs n Hn fuel 0%nat true w1) as (r & w2 & H);
    [ lia | lia | ].
  rewrite H. destruct r; eauto.
Qed.

(** However the [try] block ended, [main] finishes with the [finally]
    block, entered with the handle [create] left and without any teardown
    call made so far. *)
Lemma main_session_finally (options : RelayOptions) (sigs : Signals)
  (fuel : nat) (w0 w : World NState) :
  main_session lib options sigs fuel w0 = Some w ->
  exists w2,
    w = snd (main_finally lib w2)
    /\ _handle w2 = _handle (snd (create lib (verbose options) w0))
    /\ filter is_teardown (calls w2) = filter is_teardown (calls w0).
Proof.
  unfold main_session.
  destruct (main_setup_keeps lib options w0) as (Hh & Hc).
  destruct (main_setup lib options w0) as [[u | e] w1]; cbn [snd] in *.
  - destruct (poll_loop lib sigs fuel 0 true w1) as [[r w2] | ] eqn:Hl;
      [ | discriminate ].
    destruct (poll_loop_keeps lib sigs fuel _ _ _ _ _ Hl) as (Hh2 & Hc2).
    destruct r as [u2 | ex]; intros H; injection H as <-.
    + exists w2. repeat split; congruence.
    + eexists. split; [ reflexivity | ]. cbn. split; congruence.
  - intros H. injection H as <-.
    eexists. split; [ reflexivity | ]. cbn. split; congruence.
Qed.

End MainTheorem.

(** C8: when SIGINT or SIGTERM is handled, [main] leaves its polling loop
    and ends.  By then it has called [stop] and then [destroy] on the
    relay client: the record of native calls contains relay_leaf_stop
    followed by relay_leaf_destroy on the created handle, as its last two
    entries, and no other teardown call, so [destroy] never comes before
    [stop]; the handle is cleared.  (When [create] failed and no handle
    exists, both methods return at their guard and the record has no
    teardown call at all; the loop is then never reached.) *)
Theorem main_stops_then_destroys
  {NState : Type} (lib : NativeLib NState) (options : RelayOptions)
  (sigs : Signals) (n fuel : nat) (ns : NState) :
  sigs n <> [] -> (n <= fuel)%nat ->
  exists w,
    main lib options (Returned ns) sigs fuel = Some (stdout w, Some w)
    /\ handle_truthy (_handle w) = false
    /\ (let h := _handle (snd (create lib (verbose options) (RelayLeaf_init ns))) in
        filter is_teardown (calls w)
        = (if handle_truthy h
           then [Call_stop (handle_value h); Call_destroy (handle_value h)]
           else [])
        /\ (fst (main_setup lib options (RelayLeaf_init ns)) = Return tt ->
            exists before,
              calls w = before ++ [Call_stop (handle_value h);
                                   Call_destroy (handle_value h)]
              /\ filter is_teardown before = []))
    /\ (exists out,
           stdout w = out ++ ["Shutting down relay..."; "Client stopped + destroyed."]).
Proof.
  intros Hn Hf.
  destruct (main_session_ends lib options sigs n fuel (RelayLeaf_init ns) Hn Hf)
    as [w Hw].
  exists w. unfold main. rewrite Hw. split; [ reflexivity | ].
  destruct (main_session_finally lib options sigs fuel _ _ Hw) as (w2 & -> & Hh & Hc).
  destruct (main_finally_calls lib w2) as (Hnone & Hcalls & Hout).
  cbn [RelayLeaf_init calls filter] in Hc.
  split; [ exact Hnone | ]. split; [ | eauto ].
  cbn zeta. rewrite <- Hh. split.
  - rewrite Hcalls, filter_app, Hc.
    destruct (handle_truthy (_handle w2)); reflexivity.
  - intros Hret. apply main_setup_returned in Hret. rewrite <- Hh in Hret.
    rewrite Hret in Hcalls. eauto.
Qed.

Lemma main_stops_then_destroys_witness :
  exists w,
    main sample_lib main_options (Returned SpecNative.spec_init)
         (fun i => if Nat.eqb i 2 then [SIGINT] else []) 5
    = Some (stdout w, Some w)
    /\ filter is_teardown (calls w) = [Call_stop 1; Call_destroy 1].
Proof.
  destruct (main_stops_then_destroys sample_lib main_options
              (fun i => if Nat.eqb i 2 then [SIGINT] else []) 2 5
              SpecNative.spec_init)
    as (w & Hmain & _ & (Hcalls & _) & _).
  - discriminate.
  - lia.
  - exists w. split; [ exact Hmain | exact Hcalls ].
Defined.

(** ** Counters across polls *)

Section KeepsDll.
Context {NState : Type} (lib : NativeLib NState).

Lemma dll_ret {A} (a : A) : keeps_dll (ret (NState:=NState) a).
Proof. intros w. reflexivity. Qed.

Lemma dll_raise {A} (e : PyExc) : keeps_dll (raise (NState:=NState) (A:=A) e).
Proof. intros w. reflexivity. Qed.

Lemma dll_print (line : string) : keeps_dll (print (NState:=NState) line).
Proof. intros w. reflexivity. Qed.

Lemma dll_ffi_const {A} (ev : NativeCall) (a : A) :
  keeps_dll (ffi_const (NState:=NState) ev a).
Proof. intros w. reflexivity. Qed.

Lemma dll_bind {A B} (c : Py NState A) (k : A -> Py NState B) :
  keeps_dll c -> (forall a, keeps_dll (k a)) -> keeps_dll (bind c k).
Proof.
  intros Hc Hk w. unfold bind. specialize (Hc w).
  destruct (c w) as [[a | e] w1]; cbn [snd] in *; [ | exact Hc ].
  now rewrite Hk.
Qed.

Lemma dll_get_error_text (code : Z) : keeps_dll (get_error_text lib code).
Proof.
  intros w. destruct (get_error_text_returns lib code w) as (_ & Hs & _).
  unfold session_state in Hs. now injection Hs.
Qed.

Lemma dll_check (code : Z) (api_name : string) :
  keeps_dll (_check lib code api_name).
Proof.
  intros w. destruct (check_quiet lib code api_name w) as (Hs & _).
  unfold session_state in Hs. now injection Hs.
Qed.

(** A method that guards the handle, makes one call on it and goes on
    without the library: the library is left as that call left it. *)
Lemma dll_guarded_call {A B} (ev : Z -> NativeCall)
  (f : Z -> NState -> Outcome A * NState) (k : A -> Py NState B)
  (unguarded : Py NState B) (w : World NState) :
  (forall a, keeps_dll (k a)) -> keeps_dll unguarded ->
  dll (snd ((let* h := get_handle in
             if negb (handle_truthy h) then unguarded
             else let* a := ffi (ev (handle_value h)) (f (handle_value h)) in k a) w))
  = if handle_truthy (_handle w)
    then snd (f (handle_value (_handle w)) (dll w))
    else dll w.
Proof.
  intros Hk Hu. unfold bind at 1, get_handle.
  destruct (handle_truthy (_handle w)); cbn [negb]; [ | apply Hu ].
  unfold bind, ffi.
  destruct (f (handle_value (_handle w)) (dll w)) as [[a | m] ns]; cbn [snd];
    [ | reflexivity ].
  now rewrite Hk.
Qed.

End KeepsDll.

Ltac keeps_dll_tac :=
  repeat
    lazymatch goal with
    | |- keeps_dll (ret _) => apply dll_ret
    | |- keeps_dll (raise _) => apply dll_raise
    | |- keeps_dll (print _) => apply dll_print
    | |- keeps_dll (ffi_const _ _) => apply dll_ffi_const
    | |- keeps_dll (get_error_text _ _) => apply dll_get_error_text
    | |- keeps_dll (_check _ _ _) => apply dll_check
    | |- keeps_dll (bind _ _) => apply dll_bind; [ | intros ? ]
    | |- keeps_dll (if ?b then _ else _) => destruct b
    | |- keeps_dll (match ?x with _ => _ end) => destruct x
    | |- _ => fail
    end.

Section MethodEffects.
Context {NState : Type} (lib : NativeLib NState).

Lemma set_discovery_url_dll (url : string) (w : World NState) :
  dll (snd (set_discovery_url lib url w))
  = if handle_truthy (_handle w)
    then snd (relay_leaf_set_discovery_url lib (handle_value (_handle w)) url (dll w))
    else dll w.
Proof.
  unfold set_discovery_url.
  apply (dll_guarded_call (fun h => Call_set_discovery_url h url)
           (fun h => relay_leaf_set_discovery_url lib h url));
    intros; keeps_dll_tac.
Qed.

Lemma set_partner_id_dll (id : string) (w : World NState) :
  dll (snd (set_partner_id lib id w))
  = if handle_truthy (_handle w)
    then snd (relay_leaf_set_partner_id lib (handle_value (_handle w)) id (dll w))
    else dll w.
Proof.
  unfold set_partner_id.
  apply (dll_guarded_call (fun h => Call_set_partner_id h id)
           (fun h => relay_leaf_set_partner_id lib h id));
    intros; keeps_dll_tac.
Qed.

Lemma add_proxy_dll (url : string) (w : World NState) :
  dll (snd (add_proxy lib url w))
  = if handle_truthy (_handle w)
    then snd (relay_leaf_add_proxy lib (handle_value (_handle w)) url (dll w))
    else dll w.
Proof.
  unfold add_proxy.
  apply (dll_guarded_call (fun h => Call_add_proxy h url)
           (fun h => relay_leaf_add_proxy lib h url));
    intros; keeps_dll_tac.
Qed.

Lemma start_dll (w : World NState) :
  dll (snd (start lib w))
  = if handle_truthy (_handle w)
    then snd (relay_leaf_start lib (handle_value (_handle w)) (dll w))
    else dll w.
Proof.
  unfold start.
  apply (dll_guarded_call Call_start (relay_leaf_start lib));
    intros; keeps_dll_tac.
Qed.

Lemma stop_dll (w : World NState) :
  dll (snd (stop lib w))
  = if handle_truthy (_handle w)
    then snd (relay_leaf_stop lib (handle_value (_handle w)) (dll w))
    else dll w.
Proof.
  destruct (handle_truthy (_handle w)) eqn:H.
  - now rewrite stop_guarded.
  - now rewrite stop_unguarded.
Qed.

Lemma get_device_id_dll (w : World NState) :
  dll (snd (get_device_id lib w))
  = if handle_truthy (_handle w)
    then snd (relay_leaf_get_device_id lib (handle_value (_handle w)) (dll w))
    else dll w.
Proof.
  unfold get_device_id.
  apply (dll_guarded_call Call_get_device_id (relay_leaf_get_device_id lib));
    intros; unfold _ptr_to_string_and_free; keeps_dll_tac.
Qed.

End MethodEffects.

Lemma reported_cons (key : string) (d : PyDict) (ds : list PyDict) :
  reported key (d :: ds)
  = match dict_lookup key d with
    | Some (PyInt n) => n :: reported key ds
    | _ => reported key ds
    end.
Proof.
  unfold reported. cbn.
  destruct (dict_lookup key d) as [[ | b | n | s] | ]; reflexivity.
Qed.

Section CounterFacts.
Variable P : SpecNative.NativeParams.
Local Abbreviation lib := (SpecNative.SpecLib P).

(** A configuration call that keeps the counters of the session it
    changes keeps the counters of every session. *)
Lemma on_session_counters (h k : Z)
  (change : SpecNative.Session -> Z + SpecNative.Session)
  (ns : SpecNative.SpecState) :
  (forall s s', change s = inr s' -> SpecNative.counters s' = SpecNative.counters s) ->
  SpecNative.counters <$> SpecNative.sessions (snd (SpecNative.on_session h change ns)) !! k
  = SpecNative.counters <$> SpecNative.sessions ns !! k.
Proof.
  intros Hc. unfold SpecNative.on_session.
  destruct (SpecNative.sessions ns !! h) as [s | ] eqn:Hs; [ | reflexivity ].
  destruct (change s) as [code | s'] eqn:Hch; cbn [snd]; [ reflexivity | ].
  destruct (decide (h = k)) as [<- | Hne].
  - rewrite lookup_put, Hs. cbn. f_equal. now apply Hc.
  - now rewrite lookup_put_ne.
Qed.

Lemma spec_set_discovery_url_counters (h k : Z) (url : string)
  (ns : SpecNative.SpecState) :
  SpecNative.counters <$>
    SpecNative.sessions (snd (SpecNative.spec_set_discovery_url h url ns)) !! k
  = SpecNative.counters <$> SpecNative.sessions ns !! k.
Proof.
  apply on_session_counters. intros s s'.
  destruct (SpecNative.lifecycle s); intros [= <-]; reflexivity.
Qed.

Lemma spec_set_partner_id_counters (h k : Z) (id : string)
  (ns : SpecNative.SpecState) :
  SpecNative.counters <$>
    SpecNative.sessions (snd (SpecNative.spec_set_partner_id h id ns)) !! k
  = SpecNative.counters <$> SpecNative.sessions ns !! k.
Proof.
  apply on_session_counters. intros s s'.
  destruct (SpecNative.lifecycle s); intros [= <-]; reflexivity.
Qed.

Lemma spec_add_proxy_counters (h k : Z) (url : string)
  (ns : SpecNative.SpecState) :
  SpecNative.counters <$>
    SpecNative.sessions (snd (SpecNative.spec_add_proxy P h url ns)) !! k
  = SpecNative.counters <$> SpecNative.sessions ns !! k.
Proof.
  apply on_session_counters. intros s s'.
  destruct (SpecNative.valid_proxy P url), (SpecNative.lifecycle s);
    intros [= <-]; reflexivity.
Qed.

Lemma spec_start_counters (h k : Z) (ns : SpecNative.SpecState) :
  SpecNative.counters <$> SpecNative.sessions (snd (SpecNative.spec_start h ns)) !! k
  = SpecNative.counters <$> SpecNative.sessions ns !! k.
Proof.
  apply on_session_counters. intros s s'.
  destruct (SpecNative.lifecycle s); intros [= <-]; reflexivity.
Qed.

Lemma spec_stop_counters (h k : Z) (ns : SpecNative.SpecState) :
  SpecNative.counters <$> SpecNative.sessions (snd (SpecNative.spec_stop h ns)) !! k
  = SpecNative.counters <$> SpecNative.sessions ns !! k.
Proof.
  apply on_session_counters. intros s s'.
  destruct (SpecNative.lifecycle s); intros [= <-]; reflexivity.
Qed.

(** relay_leaf_get_stats reads: the library is unchanged, and a code of
    zero comes with the counters of the session. *)
Lemma spec_get_stats_reads (h : Z) (ns : SpecNative.SpecState) :
  exists rc st,
    SpecNative.spec_get_stats h ns = (Returned (rc, st), ns)
    /\ (rc = 0 ->
        SpecNative.counters <$> SpecNative.sessions ns !! h = Some st).
Proof.
  unfold SpecNative.spec_get_stats.
  destruct (SpecNative.sessions ns !! h) as [s | ];
    [ destruct (SpecNative.lifecycle s) | ];
    eexists _, _; (split; [ reflexivity | ]);
    first [ discriminate | reflexivity ].
Qed.

(** A poll leaves the counters alone and, when it succeeds, returns the
    dictionary of the counters of the relay object's own session. *)
Lemma get_stats_own_counters (w : World SpecNative.SpecState) :
  own_counters (snd (get_stats lib w)) = own_counters w
  /\ (exists r, fst (get_stats lib w) = Return r
        /\ forall d, r = Some d ->
             exists c, own_counters w = Some c /\ d = stats_dict c).
Proof.
  destruct (handle_truthy (_handle w)) eqn:Hh.
  - destruct (spec_get_stats_reads (handle_value (_handle w)) (dll w))
      as (rc & st & Hn & Hrc).
    destruct (get_stats_guarded lib w rc st (dll w) Hh Hn) as (Hf & Hs & _).
    unfold session_state in Hs. injection Hs as Hs1 Hs2.
    split; [ unfold own_counters; now rewrite Hs1, Hs2 | ].
    eexists. split; [ exact Hf | ].
    destruct (Z.eqb_spec rc 0) as [-> | _]; [ | discriminate ].
    intros d [= <-]. exists st. split; [ now apply Hrc | reflexivity ].
  - rewrite (get_stats_unguarded lib w Hh). split; [ reflexivity | ].
    eexists. split; [ reflexivity | discriminate ].
Qed.

Section Field.
(** One counter of the struct, under its key in the dictionary, that the
    library's background activity never lowers. *)
Variable field : RelayLeafStats -> Z.
Variable key : string.
Hypothesis field_key :
  forall c, dict_lookup key (stats_dict c) = Some (PyInt (field c)).
Hypothesis field_grows :
  forall a c, field c <= field (SpecNative.record_activity a c).

Lemma not_lower_same (w w' : World SpecNative.SpecState) :
  own_counters w' = own_counters w -> not_lower field w w'.
Proof.
  intros H. unfold not_lower. rewrite H.
  destruct (own_counters w) as [c | ]; [ | reflexivity ].
  exists c. split; [ reflexivity | lia ].
Qed.

Lemma background_not_lower (a : SpecNative.Activity) (h : Z)
  (w : World SpecNative.SpecState) :
  not_lower field w (Build_World (SpecNative.background a h (dll w)) (_handle w)
                           (calls w) (stdout w)).
Proof.
  unfold SpecNative.background.
  destruct (SpecNative.sessions (dll w) !! h) as [s | ] eqn:Hs;
    [ | now apply not_lower_same ].
  destruct (SpecNative.lifecycle s); try (now apply not_lower_same).
  unfold not_lower, own_counters. cbn [dll _handle].
  destruct (decide (h = handle_value (_handle w))) as [<- | Hne].
  - rewrite Hs, lookup_put. cbn. eexists. split; [ reflexivity | apply field_grows ].
  - rewrite lookup_put_ne by exact Hne.
    destruct (SpecNative.sessions (dll w) !! handle_value (_handle w)) as [s0 | ];
      cbn; [ | reflexivity ].
    eexists. split; [ reflexivity | lia ].
Qed.

(** No action of a lifetime lowers the counter, and a successful poll
    returns the dictionary of the counters as they are. *)
Lemma perform_not_lower (a : Action) (w : World SpecNative.SpecState) :
  not_lower field w (snd (perform P a w))
  /\ (forall d, fst (perform P a w) = Some d ->
        exists c, own_counters w = Some c /\ d = stats_dict c).
Proof.
  assert (Hsame : forall (w' : World SpecNative.SpecState) ns',
            _handle w' = _handle w ->
            dll w' = (if handle_truthy (_handle w) then ns' else dll w) ->
            (forall k, SpecNative.counters <$> SpecNative.sessions ns' !! k
                       = SpecNative.counters <$> SpecNative.sessions (dll w) !! k) ->
            own_counters w' = own_counters w).
  { intros w' ns' Hh Hd Hk. unfold own_counters. rewrite Hh, Hd.
    destruct (handle_truthy (_handle w)); [ apply Hk | reflexivity ]. }
  destruct a; cbn [perform].
  - destruct (get_stats_own_counters w) as (Hc & r & Hr & Hd).
    destruct (get_stats (SpecNative.SpecLib P) w) as [res w'] eqn:Hg.
    cbn [fst snd] in *. subst res. cbn [fst snd].
    split; [ now apply not_lower_same | exact Hd ].
  - split; [ | discriminate ]. apply not_lower_same. cbn [snd].
    eapply Hsame;
      [ exact (proj1 (keeps_get_device_id _ w)) | apply get_device_id_dll | reflexivity ].
  - split; [ | discriminate ]. apply not_lower_same. cbn [snd].
    eapply Hsame;
      [ exact (proj1 (keeps_set_discovery_url _ url w)) | apply set_discovery_url_dll
      | intros k; exact (spec_set_discovery_url_counters _ k url (dll w)) ].
  - split; [ | discriminate ]. apply not_lower_same. cbn [snd].
    eapply Hsame;
      [ exact (proj1 (keeps_set_partner_id _ id w)) | apply set_partner_id_dll
      | intros k; exact (spec_set_partner_id_counters _ k id (dll w)) ].
  - split; [ | discriminate ]. apply not_lower_same. cbn [snd].
    eapply Hsame;
      [ exact (proj1 (keeps_add_proxy _ url w)) | apply add_proxy_dll
      | intros k; exact (spec_add_proxy_counters _ k url (dll w)) ].
  - split; [ | discriminate ]. apply not_lower_same. cbn [snd].
    eapply Hsame;
      [ exact (proj1 (keeps_start _ w)) | apply start_dll
      | intros k; exact (spec_start_counters _ k (dll w)) ].
  - split; [ | discriminate ]. apply not_lower_same. cbn [snd].
    eapply Hsame;
      [ | apply stop_dll | intros k; exact (spec_stop_counters _ k (dll w)) ].
    destruct (handle_truthy (_handle w)) eqn:H.
    + now rewrite stop_guarded.
    + now rewrite stop_unguarded.
  - split; [ apply background_not_lower | discriminate ].
Qed.

(** The values reported over a lifetime are sorted, and none is below
    the counter at the start. *)
Lemma reported_sorted (acts : list Action) :
  forall w : World SpecNative.SpecState,
    StronglySorted Z.le (reported key (polls P acts w))
    /\ Forall (fun v => forall c, own_counters w = Some c -> field c <= v)
              (reported key (polls P acts w)).
Proof.
  induction acts as [ | a acts IH]; intros w; cbn [polls].
  - split; constructor.
  - destruct (perform_not_lower a w) as (Hlow & Hres).
    destruct (perform P a w) as [[d | ] w'] eqn:Hp; cbn [fst snd] in *;
      destruct (IH w') as (Hsorted & Hbound).
    + destruct (Hres d eq_refl) as (c & Hc & ->).
      unfold not_lower in Hlow. rewrite Hc in Hlow.
      destruct Hlow as (c' & Hc' & Hle).
      rewrite reported_cons, field_key.
      assert (Htail : Forall (Z.le (field c)) (reported key (polls P acts w'))).
      { eapply Forall_impl; [ exact Hbound | ].
        intros v Hv. cbn beta in Hv. specialize (Hv c' Hc'). lia. }
      split.
      * constructor; assumption.
      * constructor; [ | ].
        -- intros c0 Hc0. rewrite Hc in Hc0. injection Hc0 as <-. lia.
        -- eapply Forall_impl; [ exact Htail | ].
           intros v Hv c0 Hc0. rewrite Hc in Hc0. injection Hc0 as <-. exact Hv.
    + split; [ exact Hsorted | ].
      eapply Forall_impl; [ exact Hbound | ].
      intros v Hv c Hc. cbn beta in Hv. unfold not_lower in Hlow. rewrite Hc in Hlow.
      destruct Hlow as (c' & Hc' & Hle). specialize (Hv c' Hc'). lia.
Qed.

End Field.

End CounterFacts.

(** Background activity never lowers the two lifetime counters. *)
Lemma total_streams_grows (a : SpecNative.Activity) (c : RelayLeafStats) :
  total_streams c <= total_streams (SpecNative.record_activity a c).
Proof. destruct a; cbn; lia. Qed.

Lemma reconnect_count_grows (a : SpecNative.Activity) (c : RelayLeafStats) :
  reconnect_count c <= reconnect_count (SpecNative.record_activity a c).
Proof. destruct a; cbn; lia. Qed.

(** Every dictionary a poll returned is the dictionary of some struct. *)
Lemma polls_are_stats (P : SpecNative.NativeParams) (acts : list Action) :
  forall w : World SpecNative.SpecState,
    Forall (fun d => exists c, d = stats_dict c) (polls P acts w).
Proof.
  induction acts as [ | a acts IH]; intros w; cbn [polls]; [ constructor | ].
  destruct (perform_not_lower P total_streams total_streams_grows a w) as (_ & Hres).
  destruct (perform P a w) as [[d | ] w']; cbn [fst] in Hres; [ | apply IH ].
  constructor; [ | apply IH ].
  destruct (Hres d eq_refl) as (c & _ & ->). eauto.
Qed.

Lemma reported_all (key : string) (ds : list PyDict) :
  (forall c, exists n, dict_lookup key (stats_dict c) = Some (PyInt n)) ->
  Forall (fun d => exists c, d = stats_dict c) ds ->
  length (reported key ds) = length ds.
Proof.
  intros Hkey. induction 1 as [ | d ds (c & ->) _ IH]; [ reflexivity | ].
  rewrite reported_cons. destruct (Hkey c) as [n ->]. cbn. now rewrite IH.
Qed.

(** C9: within one session lifetime (any sequence of calls of the binding
    other than [create] and [destroy], interleaved with the background
    activity of the library of the specification), the total_streams
    values returned by the successful [get_stats] polls are non-decreasing,
    and so are the reconnect_count values; every successful poll reports
    both. *)
Theorem polled_counters_non_decreasing
  (P : SpecNative.NativeParams) (acts : list Action)
  (w : World SpecNative.SpecState) :
  StronglySorted Z.le (reported "total_streams" (polls P acts w))
  /\ StronglySorted Z.le (reported "reconnect_count" (polls P acts w))
  /\ length (reported "total_streams" (polls P acts w)) = length (polls P acts w)
  /\ length (reported "reconnect_count" (polls P acts w)) = length (polls P acts w).
Proof.
  split; [ | split; [ | split ] ].
  - apply (reported_sorted P total_streams "total_streams");
      [ reflexivity | apply total_streams_grows ].
  - apply (reported_sorted P reconnect_count "reconnect_count");
      [ reflexivity | apply reconnect_count_grows ].
  - apply reported_all; [ | apply polls_are_stats ].
    intros c. eexists. reflexivity.
  - apply reported_all; [ | apply polls_are_stats ].
    intros c. eexists. reflexivity.
Qed.

(** A lifetime in which streams open and a connection drops between polls. *)
Lemma polled_counters_non_decreasing_witness :
  reported "total_streams"
    (polls sample_params
       [ Do_get_stats; Library_activity SpecNative.Stream_opened 1; Do_get_stats;
         Library_activity (SpecNative.Connection_lost "timeout") 1;
         Library_activity SpecNative.Stream_closed 1;
         Library_activity SpecNative.Stream_opened 1; Do_get_stats;
         Do_stop; Library_activity SpecNative.Stream_opened 1; Do_get_stats ]
       sample_started)
  = [0; 1; 2; 2]
  /\ StronglySorted Z.le
       (reported "reconnect_count"
          (polls sample_params
             [ Do_get_stats; Library_activity SpecNative.Stream_opened 1; Do_get_stats;
               Library_activity (SpecNative.Connection_lost "timeout") 1;
               Library_activity SpecNative.Stream_closed 1;
               Library_activity SpecNative.Stream_opened 1; Do_get_stats;
               Do_stop; Library_activity SpecNative.Stream_opened 1; Do_get_stats ]
             sample_started)).
Proof.
  split; [ reflexivity | ].
  apply (polled_counters_non_decreasing sample_params).
Defined.

(** * Further properties of the binding *)

(** ** Texts and their release *)

Section TextFacts.
Context {NState : Type} (lib : NativeLib NState).

(** [get_error_text] in full: one lookup, and one release when the
    library returned a string. *)
Lemma get_error_text_eq (code : Z) (w : World NState) :
  get_error_text lib code w
  = (Return (error_text_of lib code),
     Build_World (dll w) (_handle w)
       (calls w ++ Call_error_message code
                     :: released (relay_leaf_error_message lib code))
       (stdout w)).
Proof.
  unfold get_error_text, _ptr_to_string_and_free, error_text_of, released.
  py_unfold.
  destruct (relay_leaf_error_message lib code) as [m | ]; cbn;
    rewrite <- ?app_assoc; reflexivity.
Qed.

Lemma get_version_eq (w : World NState) :
  get_version lib w
  = (Return (match relay_leaf_version lib with
             | Some v => if str_truthy v then v else "unknown"
             | None => "unknown"
             end),
     Build_World (dll w) (_handle w)
       (calls w ++ Call_version :: released (relay_leaf_version lib))
       (stdout w)).
Proof.
  unfold get_version, _ptr_to_string_and_free, released. py_unfold.
  destruct (relay_leaf_version lib) as [v | ]; cbn;
    rewrite <- ?app_assoc; reflexivity.
Qed.

Lemma error_text_of_truthy (code : Z) : str_truthy (error_text_of lib code) = true.
Proof.
  unfold error_text_of.
  destruct (relay_leaf_error_message lib code) as [m | ]; [ | reflexivity ].
  destruct (str_truthy m) eqn:H; [ exact H | reflexivity ].
Qed.

(** X1: [get_error_text] always returns, for every code and with or
    without a session; the text is never empty (the library's message, or
    error_code=<code> when that is NULL or empty); the relay object, the
    library and the console are left alone. *)
Theorem get_error_text_never_empty (code : Z) (w : World NState) :
  exists text,
    fst (get_error_text lib code w) = Return text
    /\ str_truthy text = true
    /\ (forall m, relay_leaf_error_message lib code = Some m ->
                  text = if str_truthy m then m else "error_code=" +:+ pretty code)
    /\ (relay_leaf_error_message lib code = None ->
        text = "error_code=" +:+ pretty code)
    /\ session_state (snd (get_error_text lib code w)) = session_state w
    /\ stdout (snd (get_error_text lib code w)) = stdout w.
Proof.
  exists (error_text_of lib code). rewrite get_error_text_eq.
  split; [ reflexivity | ]. split; [ apply error_text_of_truthy | ].
  repeat split.
  - intros m Hm. unfold error_text_of. now rewrite Hm.
  - intros Hm. unfold error_text_of. now rewrite Hm.
Qed.

(** X2: [get_version] needs no session and never raises; it returns the
    library's version string, or the text unknown when the library gives
    NULL or an empty string, so the result is never empty; the relay
    object, the library and the console are left alone. *)
Theorem get_version_never_empty (w : World NState) :
  exists version,
    fst (get_version lib w) = Return version
    /\ str_truthy version = true
    /\ (forall v, relay_leaf_version lib = Some v -> str_truthy v = true ->
                  version = v)
    /\ (relay_leaf_version lib = None \/ relay_leaf_version lib = Some "" ->
        version = "unknown")
    /\ session_state (snd (get_version lib w)) = session_state w
    /\ stdout (snd (get_version lib w)) = stdout w.
Proof.
  rewrite get_version_eq. eexists. split; [ reflexivity | ].
  split; [ | repeat split ].
  - destruct (relay_leaf_version lib) as [v | ]; [ | reflexivity ].
    destruct (str_truthy v) eqn:H; [ exact H | reflexivity ].
  - intros v Hv Ht. now rewrite Hv, Ht.
  - intros [Hv | Hv]; now rewrite Hv.
Qed.

(** X3: every string the library hands out through
    relay_leaf_error_message or relay_leaf_version is released exactly
    once, right after the call that produced it, and nothing is released
    for a NULL result: the call record grows by the lookup followed by one
    relay_leaf_free_string of that string, or by the lookup alone. *)
Theorem lookup_strings_released_once (code : Z) (w : World NState) :
  calls (snd (get_error_text lib code w))
  = calls w ++ Call_error_message code
                 :: released (relay_leaf_error_message lib code)
  /\ calls (snd (get_version lib w))
     = calls w ++ Call_version :: released (relay_leaf_version lib)
  /\ (forall ptr, length (released ptr)
                  = match ptr with Some _ => 1%nat | None => 0%nat end).
Proof.
  rewrite get_error_text_eq, get_version_eq. repeat split.
  intros [s | ]; reflexivity.
Qed.

(** [_check] on a code that is not zero, in full. *)
Lemma check_nonzero_eq (code : Z) (api_name : string) (w : World NState) :
  code <> 0 ->
  _check lib code api_name w
  = (Raise (RuntimeError (api_name +:+ " failed: " +:+ pretty code +:+ " ("
                          +:+ error_text_of lib code +:+ ")")),
     Build_World (dll w) (_handle w)
       (calls w ++ Call_error_message code
                     :: released (relay_leaf_error_message lib code))
       (stdout w)).
Proof.
  intros Hc. unfold _check.
  destruct (Z.eqb_spec code 0) as [-> | _]; [ contradiction | ]. cbn [negb].
  unfold bind. now rewrite get_error_text_eq.
Qed.

End TextFacts.

(** ** Methods on a live handle *)

Section LiveHandle.
Context {NState : Type} (lib : NativeLib NState).

(** X4: on a live handle, when the native call returns, [get_device_id]
    returns the library's text, and the empty string for NULL; a string
    is released exactly once and NULL is not released; the handle and the
    console are untouched.  The result is never [None]. *)
Theorem get_device_id_result
  (w : World NState) (ptr : option string) (ns : NState) :
  handle_truthy (_handle w) = true ->
  relay_leaf_get_device_id lib (handle_value (_handle w)) (dll w)
    = (Returned ptr, ns) ->
  get_device_id lib w
  = (Return (match ptr with Some d => d | None => "" end),
     Build_World ns (_handle w)
       (calls w ++ Call_get_device_id (handle_value (_handle w)) :: released ptr)
       (stdout w)).
Proof.
  intros Hh Hn. unfold get_device_id, bind, get_handle, ffi.
  rewrite Hh. cbn [negb]. rewrite Hn.
  unfold _ptr_to_string_and_free, released.
  destruct ptr as [d | ]; py_unfold; cbn; rewrite <- ?app_assoc.
  - destruct d; reflexivity.
  - reflexivity.
Qed.

(** [get_stats] on a live handle, in full. *)
Lemma get_stats_eq (w : World NState) (rc : Z) (st : RelayLeafStats) (ns : NState) :
  handle_truthy (_handle w) = true ->
  relay_leaf_get_stats lib (handle_value (_handle w)) (dll w)
    = (Returned (rc, st), ns) ->
  get_stats lib w
  = if Z.eqb rc 0
    then (Return (Some (stats_dict st)),
          Build_World ns (_handle w)
            (calls w ++ [Call_get_stats (handle_value (_handle w)); Call_free_stats])
            (stdout w))
    else (Return None,
          Build_World ns (_handle w)
            (calls w ++ Call_get_stats (handle_value (_handle w))
                          :: Call_error_message rc
                          :: released (relay_leaf_error_message lib rc))
            (stdout w ++ ["relay_leaf_get_stats failed: " +:+ pretty rc +:+ " - "
                          +:+ error_text_of lib rc])).
Proof.
  intros Hh Hn. unfold get_stats, bind, get_handle, ffi.
  rewrite Hh. cbn [negb]. rewrite Hn.
  destruct (Z.eqb rc 0); cbn [negb].
  - unfold ffi_const, ret. cbn. now rewrite <- app_assoc.
  - rewrite get_error_text_eq. unfold print, ret. cbn. now rewrite <- app_assoc.
Qed.


(** A guarded method that makes one call and hands the code to [_check]. *)
Lemma checked_call_eq (ev : NativeCall) (f : NState -> Outcome Z * NState)
  (api_name : string) (w : World NState) (rc : Z) (ns : NState) :
  f (dll w) = (Returned rc, ns) ->
  (let* rc := ffi ev f in _check lib rc api_name) w
  = _check lib rc api_name
      (Build_World ns (_handle w) (calls w ++ [ev]) (stdout w)).
Proof. intros Hn. unfold bind, ffi. now rewrite Hn. Qed.

Lemma set_discovery_url_eq (w : World NState) (url : string) (rc : Z) (ns : NState) :
  handle_truthy (_handle w) = true ->
  relay_leaf_set_discovery_url lib (handle_value (_handle w)) url (dll w)
    = (Returned rc, ns) ->
  set_discovery_url lib url w
  = _check lib rc "relay_leaf_set_discovery_url"
      (Build_World ns (_handle w)
         (calls w ++ [Call_set_discovery_url (handle_value (_handle w)) url])
         (stdout w)).
Proof.
  intros Hh Hn. unfold set_discovery_url. unfold bind at 1, get_handle.
  rewrite Hh. cbn [negb]. now apply checked_call_eq.
Qed.

Lemma set_partner_id_eq (w : World NState) (id : string) (rc : Z) (ns : NState) :
  handle_truthy (_handle w) = true ->
  relay_leaf_set_partner_id lib (handle_value (_handle w)) id (dll w)
    = (Returned rc, ns) ->
  set_partner_id lib id w
  = _check lib rc "relay_leaf_set_partner_id"
      (Build_World ns (_handle w)
         (calls w ++ [Call_set_partner_id (handle_value (_handle w)) id])
         (stdout w)).
Proof.
  intros Hh Hn. unfold set_partner_id. unfold bind at 1, get_handle.
  rewrite Hh. cbn [negb]. now apply checked_call_eq.
Qed.

Lemma start_eq (w : World NState) (rc : Z) (ns : NState) :
  handle_truthy (_handle w) = true ->
  relay_leaf_start lib (handle_value (_handle w)) (dll w) = (Returned rc, ns) ->
  start lib w
  = _check lib rc "relay_leaf_start"
      (Build_World ns (_handle w)
         (calls w ++ [Call_start (handle_value (_handle w))]) (stdout w)).
Proof.
  intros Hh Hn. unfold start. unfold bind at 1, get_handle.
  rewrite Hh. cbn [negb]. now apply checked_call_eq.
Qed.

(** X6: on a live handle, when the native call returns, each of
    [set_discovery_url], [set_partner_id] and [start] returns normally
    exactly on code zero, and otherwise raises a RuntimeError whose message
    starts with the name of its own native function, followed by the code
    and the library's message; in both cases the handle is kept, the
    library is as the one call left it and nothing is printed. *)
Theorem checked_methods_report (w : World NState) :
  handle_truthy (_handle w) = true ->
  (forall url rc ns,
      relay_leaf_set_discovery_url lib (handle_value (_handle w)) url (dll w)
        = (Returned rc, ns) ->
      fst (set_discovery_url lib url w)
      = (if Z.eqb rc 0 then Return tt
         else Raise (RuntimeError ("relay_leaf_set_discovery_url failed: "
                                   +:+ pretty rc +:+ " ("
                                   +:+ error_text_of lib rc +:+ ")")))
      /\ session_state (snd (set_discovery_url lib url w)) = (_handle w, ns)
      /\ stdout (snd (set_discovery_url lib url w)) = stdout w)
  /\ (forall id rc ns,
         relay_leaf_set_partner_id lib (handle_value (_handle w)) id (dll w)
           = (Returned rc, ns) ->
         fst (set_partner_id lib id w)
         = (if Z.eqb rc 0 then Return tt
            else Raise (RuntimeError ("relay_leaf_set_partner_id failed: "
                                      +:+ pretty rc +:+ " ("
                                      +:+ error_text_of lib rc +:+ ")")))
         /\ session_state (snd (set_partner_id lib id w)) = (_handle w, ns)
         /\ stdout (snd (set_partner_id lib id w)) = stdout w)
  /\ (forall rc ns,
         relay_leaf_start lib (handle_value (_handle w)) (dll w)
           = (Returned rc, ns) ->
         fst (start lib w)
         = (if Z.eqb rc 0 then Return tt
            else Raise (RuntimeError ("relay_leaf_start failed: "
                                      +:+ pretty rc +:+ " ("
                                      +:+ error_text_of lib rc +:+ ")")))
         /\ session_state (snd (start lib w)) = (_handle w, ns)
         /\ stdout (snd (start lib w)) = stdout w).
Proof.
  intros Hh.
  assert (Hcheck : forall rc api (w1 : World NState),
            fst (_check lib rc api w1)
            = (if Z.eqb rc 0 then Return tt
               else Raise (RuntimeError (api +:+ " failed: " +:+ pretty rc +:+ " ("
                                         +:+ error_text_of lib rc +:+ ")")))
            /\ session_state (snd (_check lib rc api w1)) = session_state w1
            /\ stdout (snd (_check lib rc api w1)) = stdout w1).
  { intros rc api w1. destruct (Z.eqb_spec rc 0) as [-> | Hrc].
    - rewrite check_zero. auto.
    - rewrite check_nonzero_eq by exact Hrc. auto. }
  split; [ | split ].
  - intros url rc ns Hn. rewrite (set_discovery_url_eq w url rc ns Hh Hn).
    exact (Hcheck rc "relay_leaf_set_discovery_url" _).
  - intros id rc ns Hn. rewrite (set_partner_id_eq w id rc ns Hh Hn).
    exact (Hcheck rc "relay_leaf_set_partner_id" _).
  - intros rc ns Hn. rewrite (start_eq w rc ns Hh Hn).
    exact (Hcheck rc "relay_leaf_start" _).
Qed.

End LiveHandle.

Lemma get_device_id_result_witness :
  get_device_id sample_lib sample_created
  = (Return "device-1",
     Build_World (dll sample_created) (_handle sample_created)
       (calls sample_created ++ [Call_get_device_id 1; Call_free_string "device-1"])
       (stdout sample_created)).
Proof.
  apply (get_device_id_result sample_lib sample_created (Some "device-1")
           (dll sample_created)); reflexivity.
Defined.


Lemma checked_methods_report_witness :
  fst (start sample_lib sample_started)
  = Raise (RuntimeError "relay_leaf_start failed: 5 (error_code=5)").
Proof.
  destruct (checked_methods_report sample_lib sample_started) as (_ & _ & Hstart).
  - reflexivity.
  - destruct (Hstart RelayLeafError.ALREADY_STARTED (dll sample_started)) as (Hf & _).
    + reflexivity.
    + exact Hf.
Defined.

(** ** Creating a session *)

Section CreateFacts.
Context {NState : Type} (lib : NativeLib NState).

(** [create], once the native call has returned, in full. *)
Lemma create_eq
  (w : World NState) (v : bool) (rc hv : Z) (ns : NState) :
  relay_leaf_create lib v (dll w) = (Returned (rc, hv), ns) ->
  create lib v w
  = if Z.eqb rc 0
    then (Return tt,
          Build_World ns (c_void_p hv) (calls w ++ [Call_create v]) (stdout w))
    else (Raise (RuntimeError ("relay_leaf_create failed: " +:+ pretty rc +:+ " ("
                               +:+ error_text_of lib rc +:+ ")")),
          Build_World ns (_handle w)
            (calls w ++ Call_create v :: Call_error_message rc
                          :: released (relay_leaf_error_message lib rc))
            (stdout w)).
Proof.
  intros Hn. unfold create. unfold bind at 1, ffi. rewrite Hn.
  destruct (Z.eqb_spec rc 0) as [-> | Hrc].
  - reflexivity.
  - unfold bind. rewrite check_nonzero_eq by exact Hrc. cbn.
    now rewrite <- app_assoc.
Qed.

(** X7: when relay_leaf_create returns, [create] on code zero stores the
    handle the library wrote and makes no other call: a handle the object
    already held is overwritten without relay_leaf_stop or
    relay_leaf_destroy.  On any other code it raises a RuntimeError named
    after relay_leaf_create, discards what the library wrote and keeps
    the handle the object had. *)
Theorem create_result
  (w : World NState) (v : bool) (rc hv : Z) (ns : NState) :
  relay_leaf_create lib v (dll w) = (Returned (rc, hv), ns) ->
  (rc = 0 ->
   create lib v w
   = (Return tt,
      Build_World ns (c_void_p hv) (calls w ++ [Call_create v]) (stdout w)))
  /\ (rc <> 0 ->
      fst (create lib v w)
      = Raise (RuntimeError ("relay_leaf_create failed: " +:+ pretty rc +:+ " ("
                             +:+ error_text_of lib rc +:+ ")"))
      /\ session_state (snd (create lib v w)) = (_handle w, ns)
      /\ filter is_teardown (calls (snd (create lib v w)))
         = filter is_teardown (calls w)
      /\ stdout (snd (create lib v w)) = stdout w).
Proof.
  intros Hn. rewrite (create_eq w v rc hv ns Hn). split.
  - now intros ->.
  - intros Hrc. destruct (Z.eqb_spec rc 0); [ contradiction | ].
    cbn [fst snd calls stdout]. repeat split.
    rewrite filter_app. cbn. destruct (relay_leaf_error_message lib rc); cbn;
      now rewrite app_nil_r.
Qed.

(** X8: when relay_leaf_create reports success and leaves the
    out-parameter NULL, [create] returns normally, yet the object has no
    session: the configuration methods and [start] raise, [get_stats]
    returns [None], [get_device_id] returns the empty string, and [stop]
    and [destroy] return without a native call. *)
Theorem create_null_handle
  (w : World NState) (v : bool) (ns : NState) (url : string) :
  relay_leaf_create lib v (dll w) = (Returned (0, 0), ns) ->
  fst (create lib v w) = Return tt
  /\ (let w' := snd (create lib v w) in
      start lib w' = (Raise (RuntimeError "Client not created"), w')
      /\ set_discovery_url lib url w' = (Raise (RuntimeError "Client not created"), w')
      /\ add_proxy lib url w' = (Raise (RuntimeError "Client not created"), w')
      /\ get_stats lib w' = (Return None, w')
      /\ get_device_id lib w' = (Return "", w')
      /\ stop lib w' = (Return tt, w')
      /\ destroy lib w' = (Return tt, w')).
Proof.
  intros Hn. rewrite (create_eq w v 0 0 ns Hn). cbn [Z.eqb fst snd].
  split; [ reflexivity | ]. cbn zeta.
  split; [ now apply start_unguarded | ].
  split; [ now apply set_discovery_url_unguarded | ].
  split; [ now apply add_proxy_unguarded | ].
  split; [ now apply get_stats_unguarded | ].
  split; [ now apply get_device_id_unguarded | ].
  split; [ now apply stop_unguarded | now apply destroy_unguarded ].
Qed.

End CreateFacts.

Lemma create_result_witness :
  create sample_lib true sample_created
  = (Return tt,
     Build_World (snd (SpecNative.spec_create sample_params true (dll sample_created)))
       (c_void_p 2) (calls sample_created ++ [Call_create true])
       (stdout sample_created)).
Proof.
  destruct (create_result sample_lib sample_created true 0 2
              (snd (SpecNative.spec_create sample_params true (dll sample_created))))
    as [Hok _]; [ reflexivity | ].
  now apply Hok.
Defined.

Lemma create_null_handle_witness :
  fst (create null_create_lib false sample_fresh) = Return tt
  /\ fst (start null_create_lib (snd (create null_create_lib false sample_fresh)))
     = Raise (RuntimeError "Client not created").
Proof.
  destruct (create_null_handle null_create_lib sample_fresh false
              (dll sample_fresh) "") as (Hc & Hs & _).
  - reflexivity.
  - split; [ exact Hc | ]. cbn zeta in Hs. now rewrite Hs.
Defined.

(** ** Faults of the library *)

Section FaultFacts.
Context {NState : Type} (lib : NativeLib NState).

(** A guarded method whose one native call faults: the exception leaves
    the method as it is. *)
Lemma guarded_call_fault {A B} (ev : Z -> NativeCall)
  (f : Z -> NState -> Outcome A * NState) (k : A -> Py NState B)
  (unguarded : Py NState B) (w : World NState) (m : string) (ns : NState) :
  handle_truthy (_handle w) = true ->
  f (handle_value (_handle w)) (dll w) = (Raised m, ns) ->
  (let* h := get_handle in
   if negb (handle_truthy h) then unguarded
   else let* a := ffi (ev (handle_value h)) (f (handle_value h)) in k a) w
  = (Raise (OSError m),
     Build_World ns (_handle w) (calls w ++ [ev (handle_value (_handle w))])
                 (stdout w)).
Proof.
  intros Hh Hn. unfold bind, get_handle, ffi. rewrite Hh. cbn [negb].
  now rewrite Hn.
Qed.

Lemma start_fault (w : World NState) (m : string) (ns : NState) :
  handle_truthy (_handle w) = true ->
  relay_leaf_start lib (handle_value (_handle w)) (dll w) = (Raised m, ns) ->
  start lib w
  = (Raise (OSError m),
     Build_World ns (_handle w) (calls w ++ [Call_start (handle_value (_handle w))])
                 (stdout w)).
Proof.
  intros Hh Hn. unfold start.
  exact (guarded_call_fault Call_start (relay_leaf_start lib) _ _ w m ns Hh Hn).
Qed.

(** X9: only [stop] and [destroy] absorb a fault of the library.  On a
    live handle, when the native call of [set_discovery_url],
    [set_partner_id], [add_proxy], [start], [get_stats] or [get_device_id]
    faults, the method raises that OSError to its caller, after the one
    call, with the handle kept and nothing printed; [stop] returns
    normally with the handle kept, and [destroy] returns normally with
    the handle cleared. *)
Theorem native_faults_propagate (w : World NState) (m : string) (ns : NState) :
  handle_truthy (_handle w) = true ->
  let h := handle_value (_handle w) in
  let after ev := Build_World ns (_handle w) (calls w ++ [ev]) (stdout w) in
  (forall url,
      relay_leaf_set_discovery_url lib h url (dll w) = (Raised m, ns) ->
      set_discovery_url lib url w
      = (Raise (OSError m), after (Call_set_discovery_url h url)))
  /\ (forall id,
         relay_leaf_set_partner_id lib h id (dll w) = (Raised m, ns) ->
         set_partner_id lib id w
         = (Raise (OSError m), after (Call_set_partner_id h id)))
  /\ (forall url,
         relay_leaf_add_proxy lib h url (dll w) = (Raised m, ns) ->
         add_proxy lib url w = (Raise (OSError m), after (Call_add_proxy h url)))
  /\ (relay_leaf_start lib h (dll w) = (Raised m, ns) ->
      start lib w = (Raise (OSError m), after (Call_start h)))
  /\ (relay_leaf_get_stats lib h (dll w) = (Raised m, ns) ->
      get_stats lib w = (Raise (OSError m), after (Call_get_stats h)))
  /\ (relay_leaf_get_device_id lib h (dll w) = (Raised m, ns) ->
      get_device_id lib w = (Raise (OSError m), after (Call_get_device_id h)))
  /\ (relay_leaf_stop lib h (dll w) = (Raised m, ns) ->
      stop lib w = (Return tt, after (Call_stop h)))
  /\ (relay_leaf_destroy lib h (dll w) = (Raised m, ns) ->
      destroy lib w
      = (Return tt,
         Build_World ns HandleNone (calls w ++ [Call_destroy h]) (stdout w))).
Proof.
  intros Hh h after.
  split; [ | split; [ | split; [ | split; [ | split; [ | split; [ | split ] ] ] ] ] ].
  - intros url Hn. unfold set_discovery_url.
    exact (guarded_call_fault (fun h => Call_set_discovery_url h url)
             (fun h => relay_leaf_set_discovery_url lib h url) _ _ w m ns Hh Hn).
  - intros id Hn. unfold set_partner_id.
    exact (guarded_call_fault (fun h => Call_set_partner_id h id)
             (fun h => relay_leaf_set_partner_id lib h id) _ _ w m ns Hh Hn).
  - intros url Hn. unfold add_proxy.
    exact (guarded_call_fault (fun h => Call_add_proxy h url)
             (fun h => relay_leaf_add_proxy lib h url) _ _ w m ns Hh Hn).
  - intros Hn. unfold start.
    exact (guarded_call_fault Call_start (relay_leaf_start lib) _ _ w m ns Hh Hn).
  - intros Hn. unfold get_stats.
    exact (guarded_call_fault Call_get_stats (relay_leaf_get_stats lib) _ _ w m ns Hh Hn).
  - intros Hn. unfold get_device_id.
    exact (guarded_call_fault Call_get_device_id (relay_leaf_get_device_id lib)
             _ _ w m ns Hh Hn).
  - intros Hn. rewrite (stop_guarded lib w Hh). fold h. now rewrite Hn.
  - intros Hn. rewrite (destroy_guarded lib w Hh). fold h. now rewrite Hn.
Qed.

(** [create] has no handler either. *)
Lemma create_fault (w : World NState) (v : bool) (m : string) (ns : NState) :
  relay_leaf_create lib v (dll w) = (Raised m, ns) ->
  create lib v w
  = (Raise (OSError m),
     Build_World ns (_handle w) (calls w ++ [Call_create v]) (stdout w)).
Proof. intros Hn. unfold create, bind, ffi. now rewrite Hn. Qed.

End FaultFacts.

(** ** Stopping *)

Section StopFacts.
Context {NState : Type} (lib : NativeLib NState).

(** X10: [stop] keeps [self._handle] and prints nothing, so the object
    stays usable: on a live handle a later [destroy] still reaches
    relay_leaf_destroy with the same handle (the record then ends with
    relay_leaf_stop, relay_leaf_destroy), and a later [start] is still
    forwarded to relay_leaf_start: the binding itself keeps no stopped
    state. *)
Theorem stop_keeps_handle (w : World NState) :
  _handle (snd (stop lib w)) = _handle w
  /\ stdout (snd (stop lib w)) = stdout w
  /\ (handle_truthy (_handle w) = true ->
      let h := handle_value (_handle w) in
      calls (snd (destroy lib (snd (stop lib w))))
      = calls w ++ [Call_stop h; Call_destroy h]
      /\ (exists rest,
             calls (snd (start lib (snd (stop lib w))))
             = calls w ++ [Call_stop h; Call_start h] ++ rest)).
Proof.
  destruct (handle_truthy (_handle w)) eqn:Hh.
  - rewrite (stop_guarded lib w Hh). cbn [snd _handle stdout].
    split; [ reflexivity | ]. split; [ reflexivity | ]. intros _. cbn zeta.
    set (w1 := Build_World _ (_handle w) _ (stdout w)).
    assert (H1 : handle_truthy (_handle w1) = true) by exact Hh.
    split.
    + rewrite (destroy_guarded lib w1 H1). cbn. now rewrite <- app_assoc.
    + destruct (relay_leaf_start lib (handle_value (_handle w1)) (dll w1))
        as [[rc | m] ns] eqn:Hn.
      * rewrite (start_eq lib w1 rc ns H1 Hn).
        destruct (Z.eqb_spec rc 0) as [-> | Hrc].
        -- rewrite check_zero. exists []. cbn. now rewrite <- app_assoc.
        -- rewrite check_nonzero_eq by exact Hrc. eexists. cbn.
           rewrite <- !app_assoc. reflexivity.
      * rewrite (start_fault lib w1 m ns H1 Hn). exists []. cbn.
        now rewrite <- app_assoc.
  - rewrite (stop_unguarded lib w Hh). cbn [snd].
    split; [ reflexivity | ]. split; [ reflexivity | discriminate ].
Qed.

End StopFacts.

Lemma native_faults_propagate_witness :
  stop faulty_lib sample_created
  = (Return tt,
     Build_World (dll sample_created) (_handle sample_created)
       (calls sample_created ++ [Call_stop 1]) (stdout sample_created))
  /\ start faulty_lib sample_created
     = (Raise (OSError "access violation"),
        Build_World (dll sample_created) (_handle sample_created)
          (calls sample_created ++ [Call_start 1]) (stdout sample_created)).
Proof.
  destruct (native_faults_propagate faulty_lib sample_created "access violation"
              (dll sample_created)) as (_ & _ & _ & Hstart & _ & _ & Hstop & _).
  - reflexivity.
  - split; [ apply Hstop | apply Hstart ]; reflexivity.
Defined.

(** ** Which handle reaches the library *)

Section OwnCalls.
Context {NState : Type} (lib : NativeLib NState).

Lemma own_ret {A} (h0 : Handle) (a : A) : own_calls h0 (ret (NState:=NState) a).
Proof. intros w Hw. exists []. cbn. now rewrite app_nil_r. Qed.

Lemma own_raise {A} (h0 : Handle) (e : PyExc) :
  own_calls h0 (raise (NState:=NState) (A:=A) e).
Proof. intros w Hw. exists []. cbn. now rewrite app_nil_r. Qed.

Lemma own_print (h0 : Handle) (line : string) :
  own_calls h0 (print (NState:=NState) line).
Proof. intros w Hw. exists []. cbn. now rewrite app_nil_r. Qed.

Lemma own_ffi {A} (h0 : Handle) (ev : NativeCall)
  (f : NState -> Outcome A * NState) :
  own_handle_call h0 ev = true -> own_calls h0 (ffi ev f).
Proof.
  intros Hev w Hw. exists [ev]. unfold ffi.
  destruct (f (dll w)) as [[a | m] ns]; cbn; now rewrite Hev.
Qed.

Lemma own_ffi_const {A} (h0 : Handle) (ev : NativeCall) (a : A) :
  call_handle ev = None -> own_calls h0 (ffi_const (NState:=NState) ev a).
Proof.
  intros Hev w Hw. exists [ev]. unfold ffi_const, own_handle_call. cbn.
  now rewrite Hev.
Qed.

Lemma own_bind {A B} (h0 : Handle) (c : Py NState A) (k : A -> Py NState B) :
  own_calls h0 c -> (forall a, own_calls h0 (k a)) -> own_calls h0 (bind c k).
Proof.
  intros Hc Hk w Hw. unfold bind.
  destruct (Hc w Hw) as (e1 & Hc1 & Hf1 & Hh1).
  destruct (c w) as [[a | e] w1]; cbn [snd] in *; [ | eauto ].
  destruct (Hk a w1 Hh1) as (e2 & Hc2 & Hf2 & Hh2).
  exists (e1 ++ e2). rewrite Hc2, Hc1, <- app_assoc, forallb_app, Hf1, Hf2. auto.
Qed.

(** Reading [self._handle] yields the handle the object has. *)
Lemma own_guard {B} (h0 : Handle) (k : Handle -> Py NState B) :
  own_calls h0 (k h0) -> own_calls h0 (bind get_handle k).
Proof.
  intros Hk w Hw. unfold bind, get_handle. rewrite Hw. now apply Hk.
Qed.

Lemma own_live (h0 : Handle) (ev : Z -> NativeCall) :
  handle_truthy h0 = true ->
  call_handle (ev (handle_value h0)) = Some (handle_value h0) ->
  own_handle_call h0 (ev (handle_value h0)) = true.
Proof.
  intros Ht Hev. unfold own_handle_call. now rewrite Hev, Ht, Z.eqb_refl.
Qed.

End OwnCalls.

Ltac own :=
  repeat
    lazymatch goal with
    | |- own_calls _ (ret _) => apply own_ret
    | |- own_calls _ (raise _) => apply own_raise
    | |- own_calls _ (print _) => apply own_print
    | |- own_calls _ (ffi_const _ _) => apply own_ffi_const; reflexivity
    | |- own_calls _ (bind get_handle _) => apply own_guard
    | |- own_calls _ (bind _ _) => apply own_bind; [ | intros ? ]
    | |- own_calls ?h (if negb (handle_truthy ?h) then _ else _) =>
        let H := fresh "Hlive" in destruct (handle_truthy h) eqn:H; cbn [negb]
    | |- own_calls _ (if ?b then _ else _) => destruct b
    | |- own_calls _ (match ?x with _ => _ end) => destruct x
    | Hlive : handle_truthy ?h = true |- own_calls ?h (ffi _ _) =>
        apply own_ffi;
        unfold own_handle_call; cbn [call_handle]; rewrite Hlive, Z.eqb_refl;
        reflexivity
    | |- _ => fail
    end.

Section OwnHandle.
Context {NState : Type} (lib : NativeLib NState).

Lemma own_get_error_text (h0 : Handle) (code : Z) :
  own_calls h0 (get_error_text lib code).
Proof. unfold get_error_text, _ptr_to_string_and_free. own. Qed.

Lemma own_check (h0 : Handle) (code : Z) (api_name : string) :
  own_calls h0 (_check lib code api_name).
Proof. unfold _check. own. apply own_get_error_text. Qed.

Lemma own_get_version (h0 : Handle) : own_calls h0 (get_version lib).
Proof. unfold get_version, _ptr_to_string_and_free. own. Qed.

Lemma own_get_device_id (h0 : Handle) : own_calls h0 (get_device_id lib).
Proof. unfold get_device_id, _ptr_to_string_and_free. own. Qed.

Lemma own_set_discovery_url (h0 : Handle) (url : string) :
  own_calls h0 (set_discovery_url lib url).
Proof. unfold set_discovery_url. own. apply own_check. Qed.

Lemma own_set_partner_id (h0 : Handle) (id : string) :
  own_calls h0 (set_partner_id lib id).
Proof. unfold set_partner_id. own. apply own_check. Qed.

Lemma own_add_proxy (h0 : Handle) (url : string) :
  own_calls h0 (add_proxy lib url).
Proof. unfold add_proxy. own. apply own_get_error_text. Qed.

Lemma own_start (h0 : Handle) : own_calls h0 (start lib).
Proof. unfold start. own. apply own_check. Qed.

Lemma own_get_stats (h0 : Handle) : own_calls h0 (get_stats lib).
Proof. unfold get_stats. own. apply own_get_error_text. Qed.

Lemma own_stop (h0 : Handle) : own_calls h0 (stop lib).
Proof.
  intros w Hw. destruct (handle_truthy (_handle w)) eqn:Ht.
  - rewrite (stop_guarded lib w Ht). eexists. cbn [snd calls _handle].
    split; [ reflexivity | ]. split; [ | exact Hw ].
    cbn. unfold own_handle_call. cbn. rewrite <- Hw, Ht, Z.eqb_refl. reflexivity.
  - rewrite (stop_unguarded lib w Ht). exists []. cbn. now rewrite app_nil_r.
Qed.

Lemma methods_pass_own_handle_aux (m : Method) (w : World NState) :
  exists extra,
    calls (invoke lib m w) = calls w ++ extra
    /\ forallb (own_handle_call (_handle w)) extra = true
    /\ (is_create m = false -> handle_truthy (_handle w) = false ->
        handle_truthy (_handle (invoke lib m w)) = false).
Proof.
  assert (Hown : forall A (c : Py NState A),
            own_calls (_handle w) c ->
            exists extra,
              calls (snd (c w)) = calls w ++ extra
              /\ forallb (own_handle_call (_handle w)) extra = true
              /\ (handle_truthy (_handle w) = false ->
                  handle_truthy (_handle (snd (c w))) = false)).
  { intros A c Hc. destruct (Hc w eq_refl) as (extra & H1 & H2 & H3).
    exists extra. rewrite H3. auto. }
  assert (Hdone : forall A (c : Py NState A),
            own_calls (_handle w) c ->
            exists extra,
              calls (snd (c w)) = calls w ++ extra
              /\ forallb (own_handle_call (_handle w)) extra = true
              /\ (false = false -> handle_truthy (_handle w) = false ->
                  handle_truthy (_handle (snd (c w))) = false)).
  { intros A c Hc. destruct (Hown A c Hc) as (extra & H1 & H2 & H3).
    exists extra. auto. }
  destruct m as [code | | v | | url | id | url | | | | ]; cbn [invoke is_create].
  - apply Hdone, own_get_error_text.
  - apply Hdone, own_get_version.
  - destruct (relay_leaf_create lib v (dll w)) as [[[rc hv] | msg] ns] eqn:Hn.
    + rewrite (create_eq lib w v rc hv ns Hn).
      destruct (Z.eqb rc 0); eexists; cbn [snd calls];
        (split; [ reflexivity | ]); (split; [ | discriminate ]).
      * reflexivity.
      * unfold released.
        destruct (relay_leaf_error_message lib rc); reflexivity.
    + rewrite (create_fault lib w v msg ns Hn). eexists. cbn [snd calls].
      split; [ reflexivity | ]. split; [ reflexivity | discriminate ].
  - apply Hdone, own_get_device_id.
  - apply Hdone, own_set_discovery_url.
  - apply Hdone, own_set_partner_id.
  - apply Hdone, own_add_proxy.
  - apply Hdone, own_start.
  - apply Hdone, own_stop.
  - destruct (handle_truthy (_handle w)) eqn:Ht.
    + rewrite (destroy_guarded lib w Ht). eexists. cbn [snd calls _handle].
      split; [ reflexivity | ]. split; [ | reflexivity ].
      cbn. unfold own_handle_call. cbn. now rewrite Ht, Z.eqb_refl.
    + rewrite (destroy_unguarded lib w Ht). exists []. cbn.
      rewrite app_nil_r. auto.
  - apply Hdone, own_get_stats.
Qed.

(** X11: whatever a method returns or raises, the native calls it adds
    to the record either take no handle or are given the handle the object
    holds, and only when that handle is live; every method but [create]
    leaves an object without a live handle without one. *)
Theorem methods_pass_own_handle (m : Method) (w : World NState) :
  exists extra,
    calls (invoke lib m w) = calls w ++ extra
    /\ Forall (fun ev => forall h, call_handle ev = Some h ->
                          handle_truthy (_handle w) = true
                          /\ h = handle_value (_handle w)) extra
    /\ (is_create m = false -> handle_truthy (_handle w) = false ->
        handle_truthy (_handle (invoke lib m w)) = false).
Proof.
  destruct (methods_pass_own_handle_aux m w) as (extra & H1 & H2 & H3).
  exists extra. split; [ exact H1 | ]. split; [ | exact H3 ].
  apply Forall_forall. intros ev Hev h Hh.
  rewrite forallb_forall in H2. specialize (H2 ev).
  unfold own_handle_call in H2. rewrite Hh in H2.
  apply list_elem_of_In in Hev. apply H2 in Hev.
  apply andb_prop in Hev as [Ht Heq]. apply Z.eqb_eq in Heq. auto.
Qed.

End OwnHandle.

Section MethodSequences.
Context {NState : Type} (lib : NativeLib NState).

Lemma own_handle_call_live (h0 : Handle) (ev : NativeCall) :
  own_handle_call h0 ev = true -> call_handle ev <> Some 0.
Proof.
  unfold own_handle_call. destruct (call_handle ev) as [h | ]; [ | discriminate ].
  intros H [= ->]. apply andb_prop in H as [Ht Heq].
  apply Z.eqb_eq in Heq. destruct h0 as [ | v]; [ discriminate | ].
  cbn in *. subst v. discriminate.
Qed.

Lemma own_handle_call_dead (h0 : Handle) (ev : NativeCall) :
  handle_truthy h0 = false -> own_handle_call h0 ev = true -> call_handle ev = None.
Proof.
  unfold own_handle_call. intros Ht.
  destruct (call_handle ev) as [h | ]; [ | reflexivity ].
  rewrite Ht. discriminate.
Qed.

(** X12: over any sequence of method calls, in any order and whatever
    each returns or raises, the binding never hands the NULL handle to the
    library: no call added to the record takes handle 0. *)
Theorem never_passes_null_handle (ms : list Method) (w : World NState) :
  exists extra,
    calls (invoke_all lib ms w) = calls w ++ extra
    /\ Forall (fun ev => call_handle ev <> Some 0) extra.
Proof.
  revert w. induction ms as [ | m ms IH]; intros w.
  - exists []. cbn. now rewrite app_nil_r.
  - change (invoke_all lib (m :: ms) w) with (invoke_all lib ms (invoke lib m w)).
    destruct (methods_pass_own_handle_aux lib m w) as (e1 & H1 & H2 & _).
    destruct (IH (invoke lib m w)) as (e2 & H3 & H4).
    exists (e1 ++ e2). rewrite H3, H1, <- app_assoc. split; [ reflexivity | ].
    apply Forall_app. split; [ | exact H4 ].
    apply Forall_forall. intros ev Hev.
    apply (own_handle_call_live (_handle w)).
    rewrite forallb_forall in H2. apply H2. now apply list_elem_of_In.
Qed.

(** X13: once [destroy] has run, no method hands a handle to the
    library until [create] is called again: over any sequence of methods
    without [create], every call added to the record is one that takes no
    handle (a lookup or the release of its string). *)
Theorem no_handle_use_after_destroy (ms : list Method) (w0 : World NState) :
  forallb (fun m => negb (is_create m)) ms = true ->
  exists extra,
    calls (invoke_all lib ms (snd (destroy lib w0)))
    = calls (snd (destroy lib w0)) ++ extra
    /\ Forall (fun ev => call_handle ev = None) extra.
Proof.
  intros Hms. pose proof (destroy_clears_handle lib w0) as Hdead.
  generalize dependent (snd (destroy lib w0)). clear w0.
  induction ms as [ | m ms IH]; intros w Hdead.
  - exists []. cbn. now rewrite app_nil_r.
  - cbn [forallb] in Hms. apply andb_prop in Hms as [Hm Hms].
    change (invoke_all lib (m :: ms) w) with (invoke_all lib ms (invoke lib m w)).
    destruct (methods_pass_own_handle_aux lib m w) as (e1 & H1 & H2 & Hkeep).
    destruct (IH Hms (invoke lib m w)) as (e2 & H3 & H4).
    { apply Hkeep; [ now destruct (is_create m) | exact Hdead ]. }
    exists (e1 ++ e2). rewrite H3, H1, <- app_assoc. split; [ reflexivity | ].
    apply Forall_app. split; [ | exact H4 ].
    apply Forall_forall. intros ev Hev.
    apply (own_handle_call_dead (_handle w) ev Hdead).
    rewrite forallb_forall in H2. apply H2. now apply list_elem_of_In.
Qed.

End MethodSequences.

Lemma no_handle_use_after_destroy_witness :
  exists extra,
    calls (invoke_all sample_lib [M_start; M_get_stats; M_stop; M_get_version]
             (snd (destroy sample_lib sample_started)))
    = calls (snd (destroy sample_lib sample_started)) ++ extra
    /\ Forall (fun ev => call_handle ev = None) extra.
Proof.
  apply (no_handle_use_after_destroy sample_lib
           [M_start; M_get_stats; M_stop; M_get_version] sample_started).
  reflexivity.
Defined.

(** ** Proxies, one and many *)

Section ProxyCalls.
Context {NState : Type} (lib : NativeLib NState).

(** [add_proxy] on a live handle, once the native call has returned, in
    full. *)
Lemma add_proxy_eq (w : World NState) (url : string) (rc : Z) (ns : NState) :
  handle_truthy (_handle w) = true ->
  relay_leaf_add_proxy lib (handle_value (_handle w)) url (dll w)
    = (Returned rc, ns) ->
  add_proxy lib url w
  = if Z.eqb rc 0
    then (Return true,
          Build_World ns (_handle w)
            (calls w ++ [Call_add_proxy (handle_value (_handle w)) url])
            (stdout w))
    else (Return false,
          Build_World ns (_handle w)
            (calls w ++ Call_add_proxy (handle_value (_handle w)) url
                          :: Call_error_message rc
                          :: released (relay_leaf_error_message lib rc))
            (stdout w ++ ["Invalid proxy: " +:+ url +:+ " | Code=" +:+ pretty rc
                          +:+ " | " +:+ error_text_of lib rc])).
Proof.
  intros Hh Hn. unfold add_proxy, bind, get_handle, ffi.
  rewrite Hh. cbn [negb]. rewrite Hn.
  destruct (Z.eqb rc 0); cbn [negb].
  - reflexivity.
  - rewrite get_error_text_eq. unfold print, ret. cbn. now rewrite <- app_assoc.
Qed.

(** X14: on a live handle, when relay_leaf_add_proxy returns,
    [add_proxy] prints exactly one line when the proxy is refused (the
    URL as given, the code and the library's message for it) and
    nothing when it is accepted; a refusal costs one message lookup, whose
    string is released, and an acceptance no further call. *)
Theorem add_proxy_diagnostic
  (w : World NState) (url : string) (rc : Z) (ns : NState) :
  handle_truthy (_handle w) = true ->
  relay_leaf_add_proxy lib (handle_value (_handle w)) url (dll w)
    = (Returned rc, ns) ->
  (rc = 0 ->
   stdout (snd (add_proxy lib url w)) = stdout w
   /\ calls (snd (add_proxy lib url w))
      = calls w ++ [Call_add_proxy (handle_value (_handle w)) url])
  /\ (rc <> 0 ->
      stdout (snd (add_proxy lib url w))
      = stdout w ++ ["Invalid proxy: " +:+ url +:+ " | Code=" +:+ pretty rc
                     +:+ " | " +:+ error_text_of lib rc]
      /\ calls (snd (add_proxy lib url w))
         = calls w ++ Call_add_proxy (handle_value (_handle w)) url
                        :: Call_error_message rc
                        :: released (relay_leaf_error_message lib rc)).
Proof.
  intros Hh Hn. rewrite (add_proxy_eq w url rc ns Hh Hn). split.
  - intros ->. cbn. auto.
  - intros Hrc. destruct (Z.eqb_spec rc 0); [ contradiction | ]. cbn. auto.
Qed.

(** One pass of the loop over the proxies: an entry is skipped when
    empty, and the loop goes on when [add_proxy] returned. *)
Lemma add_proxies_cons (p : string) (ps : list string) (w : World NState) (r : bool) :
  (str_truthy p = true -> fst (add_proxy lib p w) = Return r) ->
  add_proxies lib (p :: ps) w
  = add_proxies lib ps (if str_truthy p then snd (add_proxy lib p w) else w).
Proof.
  intros Hr. cbn [add_proxies]. destruct (str_truthy p).
  - unfold bind, ret. specialize (Hr eq_refl).
    destruct (add_proxy lib p w) as [res w1]. cbn [fst snd] in *. now subst res.
  - reflexivity.
Qed.

(** X15: when relay_leaf_add_proxy never faults, the loop of [main] over
    the proxies, run on a live handle, always completes: a refused proxy
    does not stop it.  It keeps the handle, skips the empty strings and
    calls relay_leaf_add_proxy once for every other entry, in list order,
    whatever the codes. *)
Theorem add_proxies_continues (ps : list string) (w : World NState) :
  (forall h url ns, exists rc ns',
      relay_leaf_add_proxy lib h url ns = (Returned rc, ns')) ->
  handle_truthy (_handle w) = true ->
  fst (add_proxies lib ps w) = Return tt
  /\ _handle (snd (add_proxies lib ps w)) = _handle w
  /\ filter is_add_proxy (calls (snd (add_proxies lib ps w)))
     = filter is_add_proxy (calls w)
       ++ map (Call_add_proxy (handle_value (_handle w))) (filter str_truthy ps).
Proof.
  intros Hret. revert w. induction ps as [ | p ps IH]; intros w Hh.
  - cbn. now rewrite app_nil_r.
  - destruct (str_truthy p) eqn:Hp.
    + destruct (Hret (handle_value (_handle w)) p (dll w)) as (rc & ns & Hn).
      pose proof (add_proxy_eq w p rc ns Hh Hn) as Heq.
      rewrite (add_proxies_cons p ps w (Z.eqb rc 0)), Hp
        by (rewrite Heq; now destruct (Z.eqb rc 0)).
      rewrite filter_cons_True by (now rewrite Hp). cbn [map].
      assert (Hw1 : _handle (snd (add_proxy lib p w)) = _handle w)
        by (rewrite Heq; now destruct (Z.eqb rc 0)).
      assert (Hc1 : filter is_add_proxy (calls (snd (add_proxy lib p w)))
                    = filter is_add_proxy (calls w)
                      ++ [Call_add_proxy (handle_value (_handle w)) p]).
      { rewrite Heq. destruct (Z.eqb rc 0); cbn [snd calls]; rewrite filter_app;
          f_equal.
        destruct (relay_leaf_error_message lib rc); reflexivity. }
      destruct (IH (snd (add_proxy lib p w))) as (Hf & Hk & Hc);
        [ now rewrite Hw1 | ].
      rewrite Hf, Hk, Hc, Hw1, Hc1, <- app_assoc. auto.
    + rewrite (add_proxies_cons p ps w true), Hp by (now rewrite Hp).
      rewrite filter_cons_False by (now rewrite Hp). apply IH, Hh.
Qed.

End ProxyCalls.

Lemma add_proxy_diagnostic_witness :
  stdout (snd (add_proxy sample_lib "not-a-url" sample_created))
  = ["Invalid proxy: not-a-url | Code=7 | invalid proxy"].
Proof.
  destruct (add_proxy_diagnostic sample_lib sample_created "not-a-url" 7
              (dll sample_created)) as [_ Hbad].
  - reflexivity.
  - reflexivity.
  - destruct Hbad as [Ho _]; [ discriminate | exact Ho ].
Defined.

Lemma sample_add_proxy_returns (h : Z) (url : string) (ns : SpecNative.SpecState) :
  exists rc ns', relay_leaf_add_proxy sample_lib h url ns = (Returned rc, ns').
Proof.
  cbn. unfold SpecNative.spec_add_proxy, SpecNative.on_session.
  destruct (SpecNative.sessions ns !! h) as [s | ]; [ | eauto ].
  destruct (negb _); [ eauto | ]. destruct (SpecNative.lifecycle s); eauto.
Qed.

Lemma add_proxies_continues_witness :
  fst (add_proxies sample_lib ["not-a-url"; ""; "socks5://127.0.0.1:1080"]
         sample_created) = Return tt
  /\ filter is_add_proxy
       (calls (snd (add_proxies sample_lib
                      ["not-a-url"; ""; "socks5://127.0.0.1:1080"] sample_created)))
     = [Call_add_proxy 1 "not-a-url"; Call_add_proxy 1 "socks5://127.0.0.1:1080"].
Proof.
  destruct (add_proxies_continues sample_lib
              ["not-a-url"; ""; "socks5://127.0.0.1:1080"] sample_created
              sample_add_proxy_returns eq_refl) as (Hf & _ & Hc).
  split; [ exact Hf | exact Hc ].
Defined.

(** ** The polling loop *)

Section PollFacts.
Context {NState : Type} (lib : NativeLib NState).

Lemma filter_get_stats_one (h : Z) (rest : list NativeCall) :
  forallb (fun c => negb (is_get_stats c)) rest = true ->
  filter is_get_stats (Call_get_stats h :: rest) = [Call_get_stats h].
Proof.
  intros Hrest. rewrite filter_cons_True by exact I. f_equal.
  induction rest as [ | c rest IH]; [ reflexivity | ].
  cbn [forallb] in Hrest. apply andb_prop in Hrest as [Hc Hrest].
  rewrite filter_cons_False by (destruct (is_get_stats c); [ discriminate | exact id ]).
  now apply IH.
Qed.

(** The line a pass prints for what relay_leaf_get_stats returned. *)
Lemma poll_once_eq
  (w : World NState) (rc : Z) (st : RelayLeafStats) (ns : NState) :
  handle_truthy (_handle w) = true ->
  relay_leaf_get_stats lib (handle_value (_handle w)) (dll w)
    = (Returned (rc, st), ns) ->
  poll_once lib w
  = (Return tt,
     Build_World ns (_handle w) (calls (snd (get_stats lib w)))
       (stdout w ++
        [ if Z.eqb rc 0
          then "Connected=" +:+ (if connected st then "True" else "False")
               +:+ " | Nodes=" +:+ pretty (connected_nodes st)
               +:+ " | Uptime=" +:+ pretty (uptime_seconds st)
               +:+ "s | Streams=" +:+ pretty (active_streams st)
               +:+ "/" +:+ pretty (total_streams st)
               +:+ " | Sent=" +:+ pretty (bytes_sent st)
               +:+ " | Recv=" +:+ pretty (bytes_received st)
          else "relay_leaf_get_stats failed: " +:+ pretty rc +:+ " - "
               +:+ error_text_of lib rc ])).
Proof.
  intros Hh Hn. rewrite (get_stats_eq lib w rc st ns Hh Hn).
  unfold poll_once, bind. rewrite (get_stats_eq lib w rc st ns Hh Hn).
  destruct (Z.eqb rc 0).
  - unfold stats_dict, print_stats, getitem, sleep, bind, ret, print. cbn.
    destruct (connected st); reflexivity.
  - reflexivity.
Qed.

(** X16: one pass of the polling loop on a live handle, when
    relay_leaf_get_stats returns, never raises: every key the status line
    reads is a key of the dictionary [get_stats] builds.  The pass prints
    exactly one line, the status line made of seven fields of the struct
    on code zero and the failure line of [get_stats] otherwise, and keeps
    the handle. *)
Theorem poll_once_prints_one_line
  (w : World NState) (rc : Z) (st : RelayLeafStats) (ns : NState) :
  handle_truthy (_handle w) = true ->
  relay_leaf_get_stats lib (handle_value (_handle w)) (dll w)
    = (Returned (rc, st), ns) ->
  fst (poll_once lib w) = Return tt
  /\ session_state (snd (poll_once lib w)) = (_handle w, ns)
  /\ stdout (snd (poll_once lib w))
     = stdout w ++
       [ if Z.eqb rc 0
         then "Connected=" +:+ (if connected st then "True" else "False")
              +:+ " | Nodes=" +:+ pretty (connected_nodes st)
              +:+ " | Uptime=" +:+ pretty (uptime_seconds st)
              +:+ "s | Streams=" +:+ pretty (active_streams st)
              +:+ "/" +:+ pretty (total_streams st)
              +:+ " | Sent=" +:+ pretty (bytes_sent st)
              +:+ " | Recv=" +:+ pretty (bytes_received st)
         else "relay_leaf_get_stats failed: " +:+ pretty rc +:+ " - "
              +:+ error_text_of lib rc ].
Proof.
  intros Hh Hn. rewrite (poll_once_eq w rc st ns Hh Hn). auto.
Qed.

(** A pass returns whenever the native call does, with or without a
    handle, and makes one relay_leaf_get_stats call on a live handle. *)
Lemma poll_once_returns (w : World NState) :
  (forall h ns, exists r ns', relay_leaf_get_stats lib h ns = (Returned r, ns')) ->
  fst (poll_once lib w) = Return tt
  /\ (handle_truthy (_handle w) = true ->
      length (filter is_get_stats (calls (snd (poll_once lib w))))
      = S (length (filter is_get_stats (calls w)))).
Proof.
  intros Hret. destruct (handle_truthy (_handle w)) eqn:Hh.
  - destruct (Hret (handle_value (_handle w)) (dll w)) as ([rc st] & ns & Hn).
    rewrite (poll_once_eq w rc st ns Hh Hn). cbn [fst snd calls].
    split; [ reflexivity | intros _ ].
    rewrite (get_stats_eq lib w rc st ns Hh Hn).
    destruct (Z.eqb rc 0); cbn [snd calls];
      rewrite filter_app, length_app, filter_get_stats_one
        by (destruct (relay_leaf_error_message lib rc); reflexivity);
      cbn [length]; lia.
  - assert (Heq : poll_once lib w = (Return tt, w)).
    { unfold poll_once, bind. now rewrite (get_stats_unguarded lib w Hh). }
    rewrite Heq. split; [ reflexivity | discriminate ].
Qed.

(** [deliver] looks only at whether a signal arrived. *)
Lemma deliver_none (running : bool) : deliver [] running = running.
Proof. reflexivity. Qed.

(** X17: while no signal has been handled the loop keeps polling: when
    relay_leaf_get_stats never faults and no signal arrives up to test
    [fuel], the loop has not ended after [fuel] passes, whatever the codes
    the polls report. *)
Theorem poll_loop_runs_until_signalled
  (sigs : Signals) (fuel : nat) (w : World NState) :
  (forall h ns, exists r ns', relay_leaf_get_stats lib h ns = (Returned r, ns')) ->
  (forall i, (i <= fuel)%nat -> sigs i = []) ->
  poll_loop lib sigs fuel 0 true w = None.
Proof.
  intros Hret Hsig.
  assert (Hgen : forall f i w',
            (forall j, (i <= j <= i + f)%nat -> sigs j = []) ->
            poll_loop lib sigs f i true w' = None).
  { induction f as [ | f IH]; intros i w' Hq; cbn [poll_loop];
      rewrite (Hq i) by lia; cbn [deliver fold_left]; [ reflexivity | ].
    destruct (poll_once_returns w' Hret) as [Hr _].
    destruct (poll_once lib w') as [r w1]. cbn [fst] in Hr. subst r.
    apply IH. intros j Hj. apply Hq. lia. }
  apply Hgen. intros j Hj. apply Hsig. lia.
Qed.

(** X18: the loop polls once per pass and stops at the first test that
    finds a signal handled: when relay_leaf_get_stats never faults and the
    first signal is handled before test [n], the loop started on a live
    handle ends normally after exactly [n] relay_leaf_get_stats calls, with
    the handle kept. *)
Theorem poll_loop_polls_until_first_signal
  (sigs : Signals) (n fuel : nat) (w : World NState) :
  (forall h ns, exists r ns', relay_leaf_get_stats lib h ns = (Returned r, ns')) ->
  handle_truthy (_handle w) = true ->
  (forall i, (i < n)%nat -> sigs i = []) ->
  sigs n <> [] ->
  (n <= fuel)%nat ->
  exists w',
    poll_loop lib sigs fuel 0 true w = Some (Return tt, w')
    /\ _handle w' = _handle w
    /\ length (filter is_get_stats (calls w'))
       = (length (filter is_get_stats (calls w)) + n)%nat.
Proof.
  intros Hret Hh Hquiet Hn Hfuel.
  assert (Hgen : forall f i w1,
            (i <= n)%nat -> (n <= i + f)%nat ->
            handle_truthy (_handle w1) = true ->
            exists w',
              poll_loop lib sigs f i true w1 = Some (Return tt, w')
              /\ _handle w' = _handle w1
              /\ length (filter is_get_stats (calls w'))
                 = (length (filter is_get_stats (calls w1)) + (n - i))%nat).
  { induction f as [ | f IH]; intros i w1 Hi Hf Hh1; cbn [poll_loop].
    - assert (i = n) as -> by lia. rewrite (deliver_some _ _ Hn).
      exists w1. rewrite Nat.sub_diag, Nat.add_0_r. auto.
    - destruct (Nat.eq_dec i n) as [-> | Hne].
      + rewrite (deliver_some _ _ Hn).
        exists w1. rewrite Nat.sub_diag, Nat.add_0_r. auto.
      + rewrite (Hquiet i) by lia. cbn [deliver fold_left].
        destruct (poll_once_returns w1 Hret) as [Hr Hc].
        destruct (keeps_poll_once lib w1) as [Hk _].
        destruct (poll_once lib w1) as [r w2]. cbn [fst snd] in *. subst r.
        destruct (IH (S i) w2) as (w' & Hl & Hh' & Hc');
          [ lia | lia | now rewrite Hk | ].
        exists w'. split; [ exact Hl | ]. split; [ congruence | ].
        rewrite Hc', (Hc Hh1). lia. }
  destruct (Hgen fuel 0%nat w) as (w' & Hl & Hh' & Hc); [ lia | lia | exact Hh | ].
  exists w'. rewrite Nat.sub_0_r in Hc. auto.
Qed.

(** The loop sees a schedule only through the tests at which some signal
    has been handled. *)
Lemma poll_loop_signals_alike (sigs sigs' : Signals) :
  (forall i, sigs i = [] <-> sigs' i = []) ->
  forall fuel i running w,
    poll_loop lib sigs fuel i running w = poll_loop lib sigs' fuel i running w.
Proof.
  intros Hs.
  assert (Hd : forall i running, deliver (sigs i) running = deliver (sigs' i) running).
  { intros i running. destruct (sigs i) as [ | s l] eqn:E.
    - rewrite (proj1 (Hs i) E). reflexivity.
    - rewrite (deliver_some (s :: l)) by discriminate.
      rewrite deliver_some; [ reflexivity | ].
      intros E'. apply Hs in E'. rewrite E in E'. discriminate. }
  induction fuel as [ | fuel IH]; intros i running w; cbn [poll_loop];
    rewrite Hd; [ reflexivity | ].
  destruct (deliver (sigs' i) running); [ | reflexivity ].
  destruct (poll_once lib w) as [[u | e] w1]; [ apply IH | reflexivity ].
Qed.

End PollFacts.

(** X19: [main] treats SIGINT and SIGTERM alike and gains nothing from a
    second signal: two schedules that have a signal handled before the
    same tests give the same run, whatever the signals are and however
    many arrive. *)
Theorem main_signals_alike
  {NState : Type} (lib : NativeLib NState) (options : RelayOptions)
  (loaded : Outcome NState) (sigs sigs' : Signals) (fuel : nat) :
  (forall i, sigs i = [] <-> sigs' i = []) ->
  main lib options loaded sigs fuel = main lib options loaded sigs' fuel.
Proof.
  intros Hs. unfold main, main_session.
  destruct loaded as [ns | m]; [ | reflexivity ].
  destruct (main_setup lib options (RelayLeaf_init ns)) as [[u | e] w1];
    [ | reflexivity ].
  now rewrite (poll_loop_signals_alike lib sigs sigs' Hs).
Qed.

(** X20: when the [try] block of [main] fails before the loop (the
    session cannot be created, configured or started), [main] ends
    whatever the signals and without any poll: it prints the error after
    Fatal error, still runs the [finally] block, which prints its two
    lines, and leaves the object without a live handle. *)
Theorem main_setup_failure_ends
  {NState : Type} (lib : NativeLib NState) (options : RelayOptions)
  (sigs : Signals) (fuel : nat) (w0 : World NState) (e : PyExc) :
  fst (main_setup lib options w0) = Raise e ->
  exists w,
    main_session lib options sigs fuel w0 = Some w
    /\ stdout w
       = stdout (snd (main_setup lib options w0))
         ++ ["Fatal error: " +:+ exc_str e; "Shutting down relay...";
             "Client stopped + destroyed."]
    /\ handle_truthy (_handle w) = false
    /\ filter is_get_stats (calls w)
       = filter is_get_stats (calls (snd (main_setup lib options w0))).
Proof.
  intros He. unfold main_session.
  destruct (main_setup lib options w0) as [r w1]. cbn [fst snd] in *. subst r.
  eexists. split; [ reflexivity | ].
  set (w2 := snd (print ("Fatal error: " +:+ exc_str e) w1)).
  destruct (main_finally_calls lib w2) as (Hnone & Hcalls & Hout).
  split; [ | split; [ exact Hnone | ] ].
  - rewrite Hout. unfold w2, print. cbn. now rewrite <- app_assoc.
  - rewrite Hcalls, filter_app. unfold w2, print. cbn [snd calls _handle].
    destruct (handle_truthy (_handle w1)); cbn; now rewrite app_nil_r.
Qed.

Lemma sample_get_stats_returns (h : Z) (ns : SpecNative.SpecState) :
  exists r ns', relay_leaf_get_stats sample_lib h ns = (Returned r, ns').
Proof.
  destruct (spec_get_stats_reads h ns) as (rc & st & Hn & _).
  exists (rc, st), ns. exact Hn.
Qed.

Lemma poll_once_prints_one_line_witness :
  stdout (snd (poll_once sample_lib sample_started))
  = ["Connected=False | Nodes=0 | Uptime=0s | Streams=0/0 | Sent=0 | Recv=0"].
Proof.
  destruct (poll_once_prints_one_line sample_lib sample_started 0
              RelayLeafStats_new (dll sample_started)) as (_ & _ & Ho).
  - reflexivity.
  - reflexivity.
  - exact Ho.
Defined.

Lemma poll_loop_runs_until_signalled_witness :
  poll_loop sample_lib (fun _ => []) 3 0 true sample_started = None.
Proof.
  apply (poll_loop_runs_until_signalled sample_lib (fun _ => []) 3 sample_started).
  - exact sample_get_stats_returns.
  - reflexivity.
Defined.

Lemma poll_loop_polls_until_first_signal_witness :
  exists w',
    poll_loop sample_lib (fun i => if Nat.eqb i 2 then [SIGTERM] else []) 5 0 true
      sample_started
    = Some (Return tt, w')
    /\ length (filter is_get_stats (calls w')) = 2%nat.
Proof.
  destruct (poll_loop_polls_until_first_signal sample_lib
              (fun i => if Nat.eqb i 2 then [SIGTERM] else []) 2 5 sample_started)
    as (w' & Hl & _ & Hc).
  - exact sample_get_stats_returns.
  - reflexivity.
  - intros i Hi. destruct i as [ | [ | i]]; [ reflexivity | reflexivity | lia ].
  - discriminate.
  - lia.
  - exists w'. split; [ exact Hl | exact Hc ].
Defined.

Lemma main_signals_alike_witness :
  main sample_lib main_options (Returned SpecNative.spec_init)
       (fun i => if Nat.eqb i 1 then [SIGINT] else []) 4
  = main sample_lib main_options (Returned SpecNative.spec_init)
         (fun i => if Nat.eqb i 1 then [SIGTERM; SIGINT] else []) 4.
Proof.
  apply (main_signals_alike sample_lib main_options (Returned SpecNative.spec_init)).
  intros i. destruct (Nat.eqb i 1); split; intros H; first [ discriminate | reflexivity ].
Defined.

Lemma main_setup_failure_ends_witness :
  exists w,
    main_session faulty_lib main_options (fun _ => []) 0 sample_fresh = Some w
    /\ stdout w
       = ["Fatal error: access violation"; "Shutting down relay...";
          "Client stopped + destroyed."].
Proof.
  destruct (main_setup_failure_ends faulty_lib main_options (fun _ => []) 0
              sample_fresh (OSError "access violation")) as (w & Hm & Ho & _).
  - reflexivity.
  - exists w. split; [ exact Hm | exact Ho ].
Defined.

(** ** Configuration comes before start *)

Section AddsOnly.
Context {NState : Type} (lib : NativeLib NState).
Variable ok : NativeCall -> bool.

Lemma adds_ret {A} (a : A) : adds_only ok (ret (NState:=NState) a).
Proof. intros w. exists []. cbn. now rewrite app_nil_r. Qed.

Lemma adds_raise {A} (e : PyExc) : adds_only ok (raise (NState:=NState) (A:=A) e).
Proof. intros w. exists []. cbn. now rewrite app_nil_r. Qed.

Lemma adds_print (line : string) : adds_only ok (print (NState:=NState) line).
Proof. intros w. exists []. cbn. now rewrite app_nil_r. Qed.

Lemma adds_get_handle : adds_only ok (get_handle (NState:=NState)).
Proof. intros w. exists []. cbn. now rewrite app_nil_r. Qed.

Lemma adds_set_handle (h : Handle) : adds_only ok (set_handle (NState:=NState) h).
Proof. intros w. exists []. cbn. now rewrite app_nil_r. Qed.

Lemma adds_ffi {A} (ev : NativeCall) (f : NState -> Outcome A * NState) :
  ok ev = true -> adds_only ok (ffi ev f).
Proof.
  intros Hev w. exists [ev]. unfold ffi.
  destruct (f (dll w)) as [[a | m] ns]; cbn; now rewrite Hev.
Qed.

Lemma adds_ffi_const {A} (ev : NativeCall) (a : A) :
  ok ev = true -> adds_only ok (ffi_const (NState:=NState) ev a).
Proof. intros Hev w. exists [ev]. cbn. now rewrite Hev. Qed.

Lemma adds_try_pass {A} (c : Py NState A) :
  adds_only ok c -> adds_only ok (try_pass c).
Proof.
  intros Hc w. destruct (Hc w) as (extra & H1 & H2). exists extra.
  unfold try_pass. destruct (c w) as [[a | e] w1]; auto.
Qed.

Lemma adds_bind {A B} (c : Py NState A) (k : A -> Py NState B) :
  adds_only ok c -> (forall a, adds_only ok (k a)) -> adds_only ok (bind c k).
Proof.
  intros Hc Hk w. unfold bind. destruct (Hc w) as (e1 & H1 & H2).
  destruct (c w) as [[a | e] w1]; cbn [snd] in *; [ | eauto ].
  destruct (Hk a w1) as (e2 & H3 & H4).
  exists (e1 ++ e2). rewrite H3, H1, <- app_assoc, forallb_app, H2, H4. auto.
Qed.

End AddsOnly.

Ltac adds :=
  repeat
    lazymatch goal with
    | |- adds_only _ (ret _) => apply adds_ret
    | |- adds_only _ (raise _) => apply adds_raise
    | |- adds_only _ (print _) => apply adds_print
    | |- adds_only _ get_handle => apply adds_get_handle
    | |- adds_only _ (set_handle _) => apply adds_set_handle
    | |- adds_only _ (ffi _ _) => apply adds_ffi; reflexivity
    | |- adds_only _ (ffi_const _ _) => apply adds_ffi_const; reflexivity
    | |- adds_only _ (try_pass _) => apply adds_try_pass
    | |- adds_only _ (bind _ _) => apply adds_bind; [ | intros ? ]
    | |- adds_only _ (if ?b then _ else _) => destruct b
    | |- adds_only _ (match ?x with _ => _ end) => destruct x
    | |- _ => fail
    end.

Section ConfigureFirst.
Context {NState : Type} (lib : NativeLib NState).

Local Abbreviation not_start := (fun c : NativeCall => negb (is_start c)).
Local Abbreviation not_config := (fun c : NativeCall => negb (is_config c)).

Lemma adds_get_error_text_ns (code : Z) : adds_only not_start (get_error_text lib code).
Proof. unfold get_error_text, _ptr_to_string_and_free. adds. Qed.

Lemma adds_get_error_text_nc (code : Z) : adds_only not_config (get_error_text lib code).
Proof. unfold get_error_text, _ptr_to_string_and_free. adds. Qed.

Lemma adds_check_ns (code : Z) (api : string) : adds_only not_start (_check lib code api).
Proof. unfold _check. adds. apply adds_get_error_text_ns. Qed.

Lemma adds_check_nc (code : Z) (api : string) : adds_only not_config (_check lib code api).
Proof. unfold _check. adds. apply adds_get_error_text_nc. Qed.

Lemma adds_create (v : bool) : adds_only not_start (create lib v).
Proof. unfold create. adds. apply adds_check_ns. Qed.

Lemma adds_get_device_id : adds_only not_start (get_device_id lib).
Proof. unfold get_device_id, _ptr_to_string_and_free. adds. Qed.

Lemma adds_set_discovery_url (url : string) :
  adds_only not_start (set_discovery_url lib url).
Proof. unfold set_discovery_url. adds. apply adds_check_ns. Qed.

Lemma adds_set_partner_id (id : string) : adds_only not_start (set_partner_id lib id).
Proof. unfold set_partner_id. adds. apply adds_check_ns. Qed.

Lemma adds_add_proxy (url : string) : adds_only not_start (add_proxy lib url).
Proof. unfold add_proxy. adds. apply adds_get_error_text_ns. Qed.

Lemma adds_add_proxies (ps : list string) : adds_only not_start (add_proxies lib ps).
Proof.
  induction ps as [ | p ps IH]; cbn [add_proxies]; adds;
    first [ exact IH | apply adds_add_proxy ].
Qed.

Lemma adds_start : adds_only not_config (start lib).
Proof. unfold start. adds. apply adds_check_nc. Qed.

Lemma adds_get_version : adds_only not_config (get_version lib).
Proof. unfold get_version, _ptr_to_string_and_free. adds. Qed.

Lemma adds_get_stats : adds_only not_config (get_stats lib).
Proof. unfold get_stats. adds. apply adds_get_error_text_nc. Qed.

Lemma adds_poll_once : adds_only not_config (poll_once lib).
Proof.
  unfold poll_once, sleep, print_stats, getitem. adds. apply adds_get_stats.
Qed.

Lemma adds_main_finally : adds_only not_config (main_finally lib).
Proof. unfold main_finally, stop, destroy. adds. Qed.

Lemma adds_poll_loop (sigs : Signals) (fuel : nat) :
  forall i running (w : World NState) r w',
    poll_loop lib sigs fuel i running w = Some (r, w') ->
    exists extra,
      calls w' = calls w ++ extra /\ forallb not_config extra = true.
Proof.
  induction fuel as [ | fuel IH]; intros i running w r w'; cbn [poll_loop];
    destruct (deliver (sigs i) running); try discriminate;
    try (intros [= <- <-]; exists []; cbn; now rewrite app_nil_r).
  destruct (adds_poll_once w) as (e1 & H1 & H2).
  destruct (poll_once lib w) as [[u | e] w1]; cbn [snd] in *.
  - intros H. destruct (IH _ _ _ _ _ H) as (e2 & H3 & H4).
    exists (e1 ++ e2). rewrite H3, H1, <- app_assoc, forallb_app, H2, H4. auto.
  - intros [= <- <-]. eauto.
Qed.

Lemma first_then {A B} (c : Py NState A) (k : A -> Py NState B) :
  adds_only not_start c -> (forall a, configures_first (k a)) ->
  configures_first (bind c k).
Proof.
  intros Hc Hk w. unfold bind. destruct (Hc w) as (e1 & H1 & H2).
  destruct (c w) as [[a | e] w1]; cbn [snd] in *.
  - destruct (Hk a w1) as (b & af & H3 & H4 & H5).
    exists (e1 ++ b), af. rewrite H3, H1, <- !app_assoc, forallb_app, H2, H4. auto.
  - exists e1, []. rewrite app_nil_r. auto.
Qed.

Lemma then_only {A} (c : Py NState A) :
  adds_only not_config c -> configures_first c.
Proof.
  intros Hc w. destruct (Hc w) as (e & H1 & H2). exists [], e. auto.
Qed.

Lemma main_setup_configures_first (options : RelayOptions) :
  configures_first (main_setup lib options).
Proof.
  unfold main_setup.
  apply first_then; [ apply adds_create | intros ? ].
  apply first_then; [ apply adds_get_device_id | intros ? ].
  apply first_then; [ apply adds_print | intros ? ].
  apply first_then;
    [ adds; apply adds_set_discovery_url | intros ? ].
  apply first_then;
    [ adds; apply adds_set_partner_id | intros ? ].
  apply first_then; [ apply adds_add_proxies | intros ? ].
  apply then_only. adds; first [ apply adds_start | apply adds_get_version ].
Qed.

End ConfigureFirst.

(** X21: in every run of [main] that ends, whatever the library
    returns, the native calls made on behalf of the relay object split
    into a first part without relay_leaf_start and a second part without
    relay_leaf_set_discovery_url, relay_leaf_set_partner_id or
    relay_leaf_add_proxy: the demo never configures a session it has
    (tried to) start. *)
Theorem main_configures_before_start
  {NState : Type} (lib : NativeLib NState) (options : RelayOptions)
  (sigs : Signals) (fuel : nat) (w0 w : World NState) :
  main_session lib options sigs fuel w0 = Some w ->
  exists before after,
    calls w = calls w0 ++ before ++ after
    /\ forallb (fun c => negb (is_start c)) before = true
    /\ forallb (fun c => negb (is_config c)) after = true.
Proof.
  unfold main_session.
  destruct (main_setup_configures_first lib options w0) as (b & a0 & H1 & H2 & H3).
  destruct (main_setup lib options w0) as [[u | e] w1]; cbn [snd] in H1.
  - destruct (poll_loop lib sigs fuel 0 true w1) as [[r w2] | ] eqn:Hl;
      [ | discriminate ].
    destruct (adds_poll_loop lib sigs fuel _ _ _ _ _ Hl) as (e1 & H4 & H5).
    destruct r as [u2 | ex]; intros [= <-].
    + destruct (adds_main_finally lib w2) as (e2 & H6 & H7).
      exists b, (a0 ++ e1 ++ e2).
      rewrite H6, H4, H1, <- !app_assoc, !forallb_app, H3, H5, H7. auto.
    + destruct (adds_main_finally lib (snd (print ("Fatal error: " +:+ exc_str ex) w2)))
        as (e2 & H6 & H7).
      exists b, (a0 ++ e1 ++ e2). cbn [print snd calls] in H6.
      rewrite H6, H4, H1, <- !app_assoc, !forallb_app, H3, H5, H7. auto.
  - intros [= <-].
    destruct (adds_main_finally lib (snd (print ("Fatal error: " +:+ exc_str e) w1)))
      as (e2 & H6 & H7).
    exists b, (a0 ++ e2). cbn [print snd calls] in H6.
    rewrite H6, H1, <- !app_assoc, !forallb_app, H3, H7. auto.
Qed.

Lemma main_configures_before_start_witness :
  exists w before after,
    main_session sample_lib main_options
      (fun i => if Nat.eqb i 1 then [SIGINT] else []) 3 sample_fresh = Some w
    /\ calls w = calls sample_fresh ++ before ++ after
    /\ forallb (fun c => negb (is_start c)) before = true
    /\ forallb (fun c => negb (is_config c)) after = true.
Proof.
  destruct (main_session sample_lib main_options
              (fun i => if Nat.eqb i 1 then [SIGINT] else []) 3 sample_fresh)
    as [w | ] eqn:Hm; [ | vm_compute in Hm; discriminate ].
  destruct (main_configures_before_start sample_lib main_options
              (fun i => if Nat.eqb i 1 then [SIGINT] else []) 3 sample_fresh w Hm)
    as (before & after & H).
  exists w, before, after. split; [ reflexivity | exact H ].
Defined.
